(** * The HTTP front-end of go-practice: Server lifecycle and request normalisation

    A shallow embedding of [GoWork/http/server.go] (with the route table of
    [GoWork/http/pkg.go]) and the properties of its specification.

    Go strings are byte strings: [string].  A Go [int] is a [Z].  The
    request is the part of [*http.Request] the server reads and writes:
    method, URL path, header map and parsed POST form.  What the operating
    system and the libraries answer (binding an address, creating the
    autocert listener, closing a listener) is passed in explicitly. *)

From Stdlib Require Import ZArith String Ascii List Bool Lia DecimalString.
From stdpp Require Import base option strings gmap.

Local Open Scope string_scope.

(** ** Go standard library: package [strings] *)

Module strings.

(** [strings.HasSuffix]: [len(s) >= len(suffix) && s[len(s)-len(suffix):] == suffix]. *)
Definition HasSuffix (s suffix : string) : bool :=
  (String.length suffix <=? String.length s)%nat &&
  String.eqb
    (substring (String.length s - String.length suffix) (String.length suffix) s)
    suffix.

(** [strings.TrimSuffix]: [s] without the trailing [suffix], or [s] itself. *)
Definition TrimSuffix (s suffix : string) : string :=
  if HasSuffix s suffix
  then substring 0 (String.length s - String.length suffix) s
  else s.

End strings.

(** ** Go standard library: package [path] *)

Module path.

(** The loop of [path.Ext]:
    [for i := len(path)-1; i >= 0 && path[i] != '/'; i-- {
       if path[i] == '.' { return path[i:] } }
     return ""].
    The counter [n] is [i + 1]. *)
Fixpoint Ext_loop (path : string) (n : nat) : string :=
  match n with
  | O => ""
  | S i =>
      match String.get i path with
      | Some c =>
          if Ascii.eqb c "/" then ""
          else if Ascii.eqb c "."
               then substring i (String.length path - i) path
               else Ext_loop path i
      | None => ""
      end
  end.

Definition Ext (path : string) : string := Ext_loop path (String.length path).

End path.

(** ** Go standard library: [net/textproto] and [http.Header] *)

Module textproto.

Definition isLower (c : ascii) : bool :=
  (97 <=? nat_of_ascii c)%nat && (nat_of_ascii c <=? 122)%nat.
Definition isUpper (c : ascii) : bool :=
  (65 <=? nat_of_ascii c)%nat && (nat_of_ascii c <=? 90)%nat.
Definition isDigit (c : ascii) : bool :=
  (48 <=? nat_of_ascii c)%nat && (nat_of_ascii c <=? 57)%nat.

(** The token bytes of RFC 7230, as in [validHeaderFieldByte]. *)
Definition validHeaderFieldByte (c : ascii) : bool :=
  isLower c || isUpper c || isDigit c ||
  existsb (Ascii.eqb c)
    ["!"; "#"; "$"; "%"; "&"; "'"; "*"; "+"; "-"; "."; "^"; "_"; "`"; "|"; "~"]%char.

Fixpoint allValid (s : string) : bool :=
  match s with
  | EmptyString => true
  | String c s' => validHeaderFieldByte c && allValid s'
  end.

(** Upper case for the first letter and for a letter after a dash, lower
    case for every other letter. *)
Fixpoint canon (upper : bool) (s : string) : string :=
  match s with
  | EmptyString => EmptyString
  | String c s' =>
      let c' :=
        if upper && isLower c then ascii_of_nat (nat_of_ascii c - 32)
        else if negb upper && isUpper c then ascii_of_nat (nat_of_ascii c + 32)
        else c in
      String c' (canon (Ascii.eqb c' "-") s')
  end.

(** [textproto.CanonicalMIMEHeaderKey]: a key with a byte that is not a
    token byte is returned as it is. *)
Definition CanonicalMIMEHeaderKey (s : string) : string :=
  if allValid s then canon true s else s.

End textproto.

(** [http.Header] is [map[string][]string]. *)
Abbreviation Header := (gmap string (list string)).

Module header.

(** [Header.Set]: the canonical key now holds the single value. *)
Definition Set_ (h : Header) (key value : string) : Header :=
  <[textproto.CanonicalMIMEHeaderKey key := [value]]> h.


End header.

(** ** The request *)

Definition MethodGet : string := "GET".
Definition MethodPost : string := "POST".
Definition MethodPatch : string := "PATCH".
Definition MethodDelete : string := "DELETE".

Record Request := mkRequest {
  Method : string;                      (* r.Method *)
  Path : string;                        (* r.URL.Path *)
  Hdr : Header;                         (* r.Header *)
  PostForm : gmap string (list string)  (* r.PostForm, the parsed body *)
}.

(** [PostForm] is what parsing the body gives when [serveHTTP] starts: the
    override, its first statement, is the first to ask for the form, before
    any header is rewritten.  The parse itself, which goes by the method and
    the Content-Type of that moment, is not modelled. *)

(** [r.PostFormValue(key)]: the first value of the body field, or [""]. *)
Definition PostFormValue (r : Request) (key : string) : string :=
  match PostForm r !! key with
  | Some (v :: _) => v
  | _ => ""
  end.

Definition setMethod (v : string) (r : Request) : Request :=
  mkRequest v (Path r) (Hdr r) (PostForm r).
Definition setPath (p : string) (r : Request) : Request :=
  mkRequest (Method r) p (Hdr r) (PostForm r).
Definition setHeader (key value : string) (r : Request) : Request :=
  mkRequest (Method r) (Path r) (header.Set_ (Hdr r) key value) (PostForm r).

(** ** [serveHTTP]: the two rewrites before dispatch *)

(** First statement of [serveHTTP]: the [_method] override. *)
Definition methodOverride (r : Request) : Request :=
  if String.eqb (Method r) MethodPost then
    let v := PostFormValue r "_method" in
    if String.eqb v MethodGet || String.eqb v MethodPost
       || String.eqb v MethodPatch || String.eqb v MethodDelete
    then setMethod v r
    else r
  else r.

(** Second statement of [serveHTTP]: the switch on [path.Ext(r.URL.Path)]. *)
Definition extNegotiate (r : Request) : Request :=
  let ext := path.Ext (Path r) in
  if String.eqb ext ".json" then
    setPath (strings.TrimSuffix (Path r) ext)
      (setHeader "Content-type" "application/json"
         (setHeader "Accept" "application/json" r))
  else if String.eqb ext ".csv" then
    setPath (strings.TrimSuffix (Path r) ext)
      (setHeader "Accept" "text/csv" r)
  else r.

(** The request as [serveHTTP] hands it to the router. *)
Definition normalize (r : Request) : Request := extNegotiate (methodOverride r).

(** ** Errors, listeners and what the environment answers *)

(** The [error] values that reach the server. *)
Inductive error :=
| OpError (op addr : string)   (* *net.OpError: listen or close on an address *)
| AcmeError (domain : string)  (* a failure of the autocert manager *)
| DeadlineExceeded.            (* context.DeadlineExceeded *)

(** The names the specification gives them. *)
Definition BindError (e : error) : Prop := exists addr, e = OpError "listen" addr.
Definition CertificateError (e : error) : Prop := exists d, e = AcmeError d.
Definition ShutdownError (e : error) : Prop := e = DeadlineExceeded.

Inductive result (A : Type) :=
| Ok (a : A)
| Err (e : error).
Arguments Ok {A} a.
Arguments Err {A} e.

(** A call either returns or panics (nil pointer dereference). *)
Inductive outcome (A : Type) :=
| Return (a : A)
| Panic.
Arguments Return {A} a.
Arguments Panic {A}.

(** A [net.Listener], by what the server asks of it. *)
Record Listener := mkListener {
  port : Z;                   (* Addr().( *net.TCPAddr).Port *)
  acceptErr : option error;   (* the error Accept reports, if the listener is broken *)
  closeErr : option error     (* the error Close reports, if any *)
}.

(** What the world outside the process answers.  [net.Listen] returns a
    listener or an error; [autocert.NewListener] returns a listener and
    nothing else: a failure to bind port 443 or to provision is kept inside
    the listener and reported by its Accept. *)
Record Env := mkEnv {
  net_Listen : string -> string -> result Listener;
  autocert_NewListener : string -> Listener
}.

(** ** The serving engine, [http.Server], in logical time *)

(** [time.Duration]: nanoseconds. *)
Definition Second : Z := 1000000000.

Definition ShutdownTimeout : Z := 1 * Second.

Record HTTPServer := mkHTTPServer {
  listeners : list Listener;  (* the listeners Serve tracks *)
  inflight : list Z;          (* per active connection: the time its request still needs *)
  inShutdown : bool
}.

(** [&http.Server{}] *)
Definition emptyHTTPServer : HTTPServer := mkHTTPServer [] [] false.

(** [srv.Serve(l)], started on its own goroutine: its return value is
    dropped.  After Shutdown it returns at once, without the listener;
    otherwise it tracks the listener and enters its Accept loop. *)
Definition Serve (srv : HTTPServer) (l : Listener) : HTTPServer :=
  if inShutdown srv then srv
  else mkHTTPServer (l :: listeners srv) (inflight srv) (inShutdown srv).

(** The end of the Accept loop of the [i]-th tracked listener: when Accept
    fails for good, [Serve] returns and the listener is no longer tracked.
    (On a temporary failure the loop sleeps and tries again, the listener
    still tracked.) *)
Definition serveReturns (i : nat) (srv : HTTPServer) : HTTPServer :=
  mkHTTPServer (delete i (listeners srv)) (inflight srv) (inShutdown srv).

(** The first error of closing the tracked listeners. *)
Fixpoint closeListeners (ls : list Listener) : option error :=
  match ls with
  | [] => None
  | l :: ls' =>
      match closeErr l with
      | Some e => Some e
      | None => closeListeners ls'
      end
  end.

(** The time until every active connection is idle. *)
Definition drainTime (srv : HTTPServer) : Z := fold_right Z.max 0%Z (inflight srv).

(** What is still in flight after [t]. *)
Definition stillInflight (t : Z) (l : list Z) : list Z :=
  map (fun d => (d - t)%Z) (filter (fun d => (t <? d)%Z) l).

Record shutdown := mkShutdown {
  engine : HTTPServer;   (* the engine afterwards *)
  err : option error;    (* the value returned *)
  waited : Z             (* how long the caller was blocked *)
}.

Definition Millisecond : Z := 1000000.

Definition shutdownPollIntervalMax : Z := 500 * Millisecond.

(** [rand.Intn(n)], the [k]-th draw of the process: [rnd k] brought into
    the range from 0 below [n]. *)
Definition Intn (rnd : nat -> Z) (k : nat) (n : Z) : Z := (rnd k mod n)%Z.

(** How the polling loop of Shutdown ends. *)
Inductive polled :=
| Idle (t : Z)   (* at time [t] a poll found every connection idle *)
| Expired.       (* the context was done first *)

(** The loop of [Shutdown]:
    [for { if srv.closeIdleConns() { return lnerr }
           select { case <-ctx.Done(): return ctx.Err()
                    case <-timer.C: timer.Reset(nextPollInterval()) } }]
    where [nextPollInterval] is the base plus up to a tenth of it, the base
    starting at a millisecond and doubling up to [shutdownPollIntervalMax].
    [now] is the time of this poll, [k] counts the draws.  When the timer
    and the context are due at the same instant the context is taken. *)
Fixpoint pollLoop (fuel : nat) (rnd : nat -> Z) (k : nat)
    (pollIntervalBase now deadline drain : Z) : option polled :=
  match fuel with
  | O => None
  | S fuel' =>
      if (drain <=? now)%Z then Some (Idle now)
      else
        let interval :=
          (pollIntervalBase + Intn rnd k (pollIntervalBase / 10))%Z in
        if (deadline <=? now + interval)%Z then Some Expired
        else pollLoop fuel' rnd (S k)
               (Z.min (2 * pollIntervalBase) shutdownPollIntervalMax)
               (now + interval)%Z deadline drain
  end.

(** Every interval is a millisecond at least, so this many polls reach
    any deadline [timeout] away. *)
Definition pollFuel (timeout : Z) : nat := Z.to_nat (timeout / Millisecond) + 1.

(** [srv.Shutdown(ctx)] with a context that expires after [timeout]: close
    the listeners, then poll for the connections to be idle; if the context
    expires first return its error, otherwise the error of closing the
    listeners. *)
Definition Shutdown (rnd : nat -> Z) (srv : HTTPServer) (timeout : Z) : shutdown :=
  let lnerr := closeListeners (listeners srv) in
  match pollLoop (pollFuel timeout) rnd 0 Millisecond 0 timeout (drainTime srv) with
  | Some (Idle t) => mkShutdown (mkHTTPServer [] [] true) lnerr t
  | _ => mkShutdown (mkHTTPServer [] (stillInflight timeout (inflight srv)) true)
           (Some DeadlineExceeded) timeout
  end.

(** ** The router, [mux.Router], as its route table *)

Inductive Handler := handleHelloWorld.

Record Route := mkRoute {
  pathPrefix : string;     (* PathPrefix of the subrouter *)
  tpl : string;            (* path template *)
  methods : list string;   (* Methods(...) *)
  handler : Handler
}.

Definition Router := list Route.

(** [registerPkgRoutes], on the subrouter of prefix [pre]. *)
Definition registerPkgRoutes (pre : string) (r : Router) : Router :=
  (r ++ [mkRoute pre "/helloworld" [MethodGet] handleHelloWorld])%list.

(** ** The Server *)

Record Server := mkServer {
  ln : option Listener;        (* nil until Open *)
  server : option HTTPServer;  (* *http.Server *)
  router : option Router;      (* *mux.Router *)
  Addr : string;
  Domain : string;
  HashKey : string;
  BlockKey : string
}.

Definition NewServer : Server :=
  mkServer None (Some emptyHTTPServer) (Some (registerPkgRoutes "/" [])) "" "" "" "".

(** The host sets the configuration fields directly. *)
Definition setAddr (a : string) (s : Server) : Server :=
  mkServer (ln s) (server s) (router s) a (Domain s) (HashKey s) (BlockKey s).
Definition setDomain (d : string) (s : Server) : Server :=
  mkServer (ln s) (server s) (router s) (Addr s) d (HashKey s) (BlockKey s).
Definition setHashKey (k : string) (s : Server) : Server :=
  mkServer (ln s) (server s) (router s) (Addr s) (Domain s) k (BlockKey s).
Definition setBlockKey (k : string) (s : Server) : Server :=
  mkServer (ln s) (server s) (router s) (Addr s) (Domain s) (HashKey s) k.
Definition setLn (l : option Listener) (s : Server) : Server :=
  mkServer l (server s) (router s) (Addr s) (Domain s) (HashKey s) (BlockKey s).
Definition setEngine (e : HTTPServer) (s : Server) : Server :=
  mkServer (ln s) (Some e) (router s) (Addr s) (Domain s) (HashKey s) (BlockKey s).

Definition UseTLS (s : Server) : bool := negb (String.eqb (Domain s) "").

Definition Scheme (s : Server) : string :=
  if UseTLS s then "https" else "http".

Definition Port (s : Server) : Z :=
  match ln s with
  | None => 0
  | Some l => port l
  end.

(** [%d] of [fmt.Sprintf]. *)
Definition itoa (n : Z) : string := NilZero.string_of_int (Z.to_int n).

Definition URL (s : Server) : string :=
  let scheme := Scheme s in
  let port := Port s in
  let domain := if negb (String.eqb (Domain s) "") then Domain s else "localhost" in
  if (String.eqb scheme "http" && (port =? 80)%Z)
     || (String.eqb scheme "https" && (port =? 443)%Z)
  then Scheme s +:+ "://" +:+ domain
  else Scheme s +:+ "://" +:+ domain +:+ ":" +:+ itoa (Port s).

(** [handleHelloWorld]: [fmt.Println("Hello World!")], nothing written to
    the response.  The result is the lines printed. *)
Definition runHandler (h : Handler) (s : Server) (r : Request) : list string :=
  match h with
  | handleHelloWorld => ["Hello World!"]
  end.

(** [serveHTTP]: rewrite the request, then let the router dispatch it.
    Dispatch itself is gorilla/mux's: [mux_ServeHTTP]. *)
Section Dispatch.
Context {Response : Type}.
Variable mux_ServeHTTP : Router -> Request -> Response.

Definition serveHTTP (s : Server) (r : Request) : outcome Response :=
  let r' := normalize r in
  match router s with
  | None => Panic
  | Some rt => Return (mux_ServeHTTP rt r')
  end.
End Dispatch.

(** [Open]: the listener, then the serve loop on its own goroutine. *)
Definition Open (env : Env) (s : Server) : outcome (Server * option error) :=
  let bound :=
    if negb (String.eqb (Domain s) "")
    then Ok (autocert_NewListener env (Domain s))
    else net_Listen env "tcp" (Addr s) in
  match bound with
  | Err e => Return (setLn None s, Some e)
  | Ok l =>
      match server s with
      | None => Panic
      | Some srv => Return (setEngine (Serve srv l) (setLn (Some l) s), None)
      end
  end.

Record closed := mkClosed {
  after : Server;
  returned : option error;
  blocked : Z
}.

(** [Close]: Shutdown under a context of [ShutdownTimeout].  [rnd] is
    what the random source of the process gives the polling of Shutdown. *)
Definition Close (rnd : nat -> Z) (s : Server) : outcome closed :=
  match server s with
  | None => Panic
  | Some srv =>
      let sd := Shutdown rnd srv ShutdownTimeout in
      Return (mkClosed (setEngine (engine sd) s) (err sd) (waited sd))
  end.

(** ** Vocabulary of the statements *)

(** No slash and no dot. *)
Fixpoint plain (t : string) : bool :=
  match t with
  | EmptyString => true
  | String c t' => negb (Ascii.eqb c "/") && negb (Ascii.eqb c ".") && plain t'
  end.

(** The values of [_method] that override the method. *)
Definition overrides : list string := [MethodGet; MethodPost; MethodPatch; MethodDelete].

(** The port suffix of [URL] is left out. *)
Definition defaultPort (s : Server) : Prop :=
  (Scheme s = "http" /\ Port s = 80%Z) \/ (Scheme s = "https" /\ Port s = 443%Z).

(** The host part of [URL]. *)
Definition host (s : Server) : string :=
  if decide (Domain s = "") then "localhost" else Domain s.


(** Two Servers that differ at most in [HashKey] and [BlockKey]. *)
Definition keysApart (s1 s2 : Server) : Prop :=
  ln s1 = ln s2 /\ server s1 = server s2 /\ router s1 = router s2 /\
  Addr s1 = Addr s2 /\ Domain s1 = Domain s2.

(** Two calls end the same way, with results related by [R]. *)
Definition sameOutcome {A : Type} (R : A -> A -> Prop) (o1 o2 : outcome A) : Prop :=
  match o1, o2 with
  | Return a, Return b => R a b
  | Panic, Panic => True
  | _, _ => False
  end.

(** ** Concrete environments and servers *)

(** Every bind fails; the autocert listener cannot provision. *)
Definition brokenEnv : Env :=
  mkEnv (fun _ addr => Err (OpError "listen" addr))
        (fun d => mkListener 443 (Some (AcmeError d)) None).

(** Binding gives port 8080; the autocert listener works. *)
Definition goodEnv : Env :=
  mkEnv (fun _ _ => Ok (mkListener 8080 None None))
        (fun _ => mkListener 443 None None).

(** Binding gives a listener whose Close reports an error. *)
Definition stickyEnv : Env :=
  mkEnv (fun _ addr => Ok (mkListener 8080 None (Some (OpError "close" addr))))
        (fun _ => mkListener 443 None None).

Definition tlsServer : Server := setDomain "example.com" NewServer.

(** A Server opened on [stickyEnv], with nothing in flight. *)
Definition stickyServer : Server :=
  setEngine (Serve emptyHTTPServer (mkListener 8080 None (Some (OpError "close" ":8080"))))
    (setLn (Some (mkListener 8080 None (Some (OpError "close" ":8080"))))
       (setAddr ":8080" NewServer)).

(** A Server with one request in flight that needs [d] more nanoseconds. *)
Definition busyServer (d : Z) : Server :=
  setEngine (mkHTTPServer [mkListener 8080 None None] [d] false)
    (setLn (Some (mkListener 8080 None None)) NewServer).

Definition reportCSV : Request :=
  mkRequest "GET" "/report.csv" {["Content-Type" := ["text/plain"]]} ∅.
Definition reportTwice : Request := mkRequest "GET" "/report.json.json" ∅ ∅.

(** ** The whole life of a Server *)

(** The connections of a serving engine at some later moment: [busy] lists,
    for each request then in flight, the time it still needs.  An engine
    that tracks no listener accepts nothing. *)
Definition traffic (busy : list Z) (srv : HTTPServer) : HTTPServer :=
  match listeners srv with
  | [] => srv
  | _ :: _ => mkHTTPServer (listeners srv) busy (inShutdown srv)
  end.

(** Every Server the host process can hold: built by [NewServer], with
    fields set, opened and closed in any order, serving in between, and
    with serve loops that return when Accept fails for good. *)
Inductive reachable : Server -> Prop :=
| reach_new : reachable NewServer
| reach_addr a s : reachable s -> reachable (setAddr a s)
| reach_domain d s : reachable s -> reachable (setDomain d s)
| reach_hashkey k s : reachable s -> reachable (setHashKey k s)
| reach_blockkey k s : reachable s -> reachable (setBlockKey k s)
| reach_open env s s' e :
    reachable s -> Open env s = Return (s', e) -> reachable s'
| reach_traffic busy s srv :
    reachable s -> server s = Some srv -> reachable (setEngine (traffic busy srv) s)
| reach_serve_returns i s srv l :
    reachable s -> server s = Some srv ->
    listeners srv !! i = Some l -> acceptErr l <> None ->
    reachable (setEngine (serveReturns i srv) s)
| reach_close rnd s c :
    reachable s -> Close rnd s = Return c -> reachable (after c).

(** The engine of a Server: never shut down and still tracking a listener. *)
Definition engineOK (srv : HTTPServer) : Prop :=
  inShutdown srv = true -> listeners srv = [].

(** ** The host process of the workshop server: [package main] *)

Module workshop.

Record Main := mkMain {
  HTTPServer : option Server   (* *http.Server *)
}.

Definition NewMain : Main := mkMain (Some NewServer).

(** The line [Run] logs: [running : url=%q debug=http://localhost:6060]. *)
Inductive logLine := Running (url : string).

(** [(m *Main) Close]: closes the server if there is one. *)
Definition Close (rnd : nat -> Z) (m : Main) : outcome (Main * option error) :=
  match HTTPServer m with
  | Some s =>
      match Close rnd s with
      | Panic => Panic
      | Return c => Return (mkMain (Some (after c)), returned c)
      end
  | None => Return (m, None)
  end.

(** [(m *Main) Run]: opens the server and logs its URL. *)
Definition Run (env : Env) (m : Main) : outcome (Main * option error * list logLine) :=
  match HTTPServer m with
  | None => Panic
  | Some s =>
      match Open env s with
      | Panic => Panic
      | Return (s', Some e) => Return (mkMain (Some s'), Some e, [])
      | Return (s', None) => Return (mkMain (Some s'), None, [Running (URL s')])
      end
  end.

(** The server of [m] when the interrupt arrives, with [busy] in flight. *)
Definition atInterrupt (busy : list Z) (m : Main) : Main :=
  match HTTPServer m with
  | Some s =>
      match server s with
      | Some srv => mkMain (Some (setEngine (traffic busy srv) s))
      | None => m
      end
  | None => m
  end.

(** What a run of the process meets. *)
Record Runtime := mkRuntime {
  rand : nat -> Z;              (* the draws of the random source *)
  timers : bool;                (* whether the runtime can start a timer before any
                                   descriptor is polled: it cannot when the system
                                   has no descriptor left for its poller *)
  interrupt : option (list Z)   (* the interrupt, if it ever comes, and the
                                   requests then in flight *)
}.

Inductive ending :=
| Exited (code : Z)   (* [os.Exit(code)], or [main] returning: 0 *)
| Aborted             (* a fatal error of the runtime: status 2 *)
| Waiting             (* blocked on [<-ctx.Done()] for ever *)
| Panicked.

Record process := mkProcess {
  status : ending;
  reported : list error;   (* the errors [fmt.Fprintln(os.Stderr, err)] printed *)
  logged : list logLine
}.

(** [main].  A failed [Run] closes, prints the error and exits with 1; the
    timer of that [Close] is the first thing the runtime has to poll, and
    without a descriptor for it the runtime aborts the process before
    anything is printed.  After a [Run] that returned nil [main] waits for
    the interrupt, closes, and exits with 1 and the error printed if
    [Close] returns one. *)
Definition main (env : Env) (rt : Runtime) : process :=
  let m := NewMain in
  match Run env m with
  | Panic => mkProcess Panicked [] []
  | Return (m1, Some e, lg) =>
      if timers rt then
        match Close (rand rt) m1 with
        | Panic => mkProcess Panicked [] lg
        | Return _ => mkProcess (Exited 1%Z) [e] lg
        end
      else mkProcess Aborted [] lg
  | Return (m1, None, lg) =>
      match interrupt rt with
      | None => mkProcess Waiting [] lg
      | Some busy =>
          match Close (rand rt) (atInterrupt busy m1) with
          | Panic => mkProcess Panicked [] lg
          | Return (_, Some e) => mkProcess (Exited 1%Z) [e] lg
          | Return (_, None) => mkProcess (Exited 0%Z) [] lg
          end
      end
  end.

End workshop.

(** ** Go standard library: [strings.HasPrefix] and [strings.TrimPrefix] *)

(** [len(s) >= len(prefix) && s[:len(prefix)] == prefix] *)
Definition HasPrefix (s prefix : string) : bool :=
  (String.length prefix <=? String.length s)%nat &&
  String.eqb (substring 0 (String.length prefix) s) prefix.

(** [s[len(prefix):]] when [s] has the prefix, else [s]. *)
Definition TrimPrefix (s prefix : string) : string :=
  if HasPrefix s prefix
  then substring (String.length prefix) (String.length s - String.length prefix) s
  else s.

(** ** The host process of betwiz: paths and defaults *)

Module betwiz.

Inductive hostError :=
| UserError (msg : string)   (* an error of [user.Current] *)
| Errorf (msg : string).     (* [fmt.Errorf(msg)] *)

(** [*user.User], by the field [expand] reads. *)
Record User := mkUser {
  HomeDir : string
}.

(** What the operating system answers: the path separator, the current
    user, and [filepath.Join]. *)
Record Host := mkHost {
  PathSeparator : ascii;
  user_Current : User + hostError;
  filepath_Join : list string -> string
}.

Definition DefaultConfigPath : string := "./betwiz.conf".
Definition DefaultDSN : string := "~/.betwiz/db".

(** ["~" + string(os.PathSeparator)] *)
Definition tildeSep (os : Host) : string := String "~" (String (PathSeparator os) "").

(** [expand]: a path with a leading ["~/"] is put under the home directory
    of the current user. *)
Definition expand (os : Host) (path : string) : string * option hostError :=
  if negb (String.eqb path "-") && negb (HasPrefix path (tildeSep os))
  then (path, None)
  else
    match user_Current os with
    | inr e => (path, Some e)
    | inl u =>
        if String.eqb (HomeDir u) "" then (path, Some (Errorf "home directory unset"))
        else if String.eqb path "~" then (HomeDir u, None)
        else (filepath_Join os [HomeDir u; TrimPrefix path (tildeSep os)], None)
    end.

Definition expandDSN (os : Host) (dsn : string) : string * option hostError :=
  expand os dsn.

(** The first statement of [main]: [betwiz.Version = strings.TrimPrefix(version, "")]. *)
Definition Version (version : string) : string := TrimPrefix version "".

(** A Unix host with the user given.  Its [filepath_Join] only puts the
    separator between its arguments and cleans nothing: it is
    [filepath.Join] on elements that are clean already and not empty, and
    stands for it on such elements only. *)
Definition unixHost (u : User + hostError) : Host :=
  mkHost "/" u (fun elems => String.concat "/" elems).

End betwiz.

(** ** More concrete servers and requests *)

(** A random source that always draws 0: polling without jitter. *)
Definition noJitter : nat -> Z := fun _ => 0%Z.

(** A random source that always draws the largest jitter of its range. *)
Definition fullJitter : nat -> Z := fun _ => (-1)%Z.

Definition servingServer : Server := busyServer 0.

(** * Properties *)

(** ** Byte strings *)

Lemma length_app (a b : string) :
  String.length (a +:+ b) = String.length a + String.length b.
Proof. induction a as [|c a IH]; simpl; [reflexivity | now rewrite IH]. Qed.

Lemma substring_whole (s : string) : substring 0 (String.length s) s = s.
Proof. induction s as [|c s IH]; simpl; [reflexivity | now rewrite IH]. Qed.

Lemma substring_app_l (p s : string) : substring 0 (String.length p) (p +:+ s) = p.
Proof.
  induction p as [|c p IH]; simpl.
  - now destruct s.
  - now rewrite IH.
Qed.

Lemma substring_app_r (p s : string) :
  substring (String.length p) (String.length s) (p +:+ s) = s.
Proof. induction p as [|c p IH]; simpl; [apply substring_whole | exact IH]. Qed.

Lemma substring_split (s : string) (i : nat) :
  i <= String.length s ->
  s = substring 0 i s +:+ substring i (String.length s - i) s.
Proof.
  revert i; induction s as [|c s IH]; intros [|i] H; simpl in *; try lia.
  - reflexivity.
  - now rewrite substring_whole.
  - transitivity (String c (substring 0 i s +:+ substring i (String.length s - i) s));
      [now rewrite <- IH by lia | reflexivity].
Qed.

Lemma get_lt (s : string) (i : nat) (c : ascii) :
  String.get i s = Some c -> i < String.length s.
Proof.
  revert i; induction s as [|d s IH]; intros [|i] H; simpl in *;
    try discriminate; try lia.
  apply IH in H. lia.
Qed.

Lemma get_app_r (p s : string) (k : nat) :
  String.get (String.length p + k) (p +:+ s) = String.get k s.
Proof. induction p as [|c p IH]; simpl; [reflexivity | exact IH]. Qed.

(** ** [strings.HasSuffix] and [strings.TrimSuffix] *)

Lemma HasSuffix_app (p e : string) : strings.HasSuffix (p +:+ e) e = true.
Proof.
  unfold strings.HasSuffix. rewrite length_app.
  replace (String.length p + String.length e - String.length e)
    with (String.length p) by lia.
  rewrite substring_app_r, String.eqb_refl, andb_true_r.
  apply Nat.leb_le. lia.
Qed.

Lemma HasSuffix_inv (s e : string) :
  strings.HasSuffix s e = true ->
  s = substring 0 (String.length s - String.length e) s +:+ e.
Proof.
  unfold strings.HasSuffix. intros H.
  apply andb_true_iff in H as [Hle Heq].
  apply Nat.leb_le in Hle. apply String.eqb_eq in Heq.
  rewrite (substring_split s (String.length s - String.length e)) at 1 by lia.
  replace (String.length s - (String.length s - String.length e))
    with (String.length e) by lia.
  now rewrite Heq.
Qed.

(** [HasSuffix] decides "ends with". *)
Lemma HasSuffix_iff (s e : string) :
  strings.HasSuffix s e = true <-> exists p, s = p +:+ e.
Proof.
  split.
  - intros H. eexists. exact (HasSuffix_inv s e H).
  - intros [p ->]. apply HasSuffix_app.
Qed.

Lemma TrimSuffix_app (p e : string) : strings.TrimSuffix (p +:+ e) e = p.
Proof.
  unfold strings.TrimSuffix. rewrite HasSuffix_app, length_app.
  replace (String.length p + String.length e - String.length e)
    with (String.length p) by lia.
  apply substring_app_l.
Qed.


(** ** [path.Ext] *)

Lemma plain_get (t : string) (k : nat) (c : ascii) :
  plain t = true -> String.get k t = Some c ->
  Ascii.eqb c "/" = false /\ Ascii.eqb c "." = false.
Proof.
  revert k; induction t as [|d t IH]; intros k Hp Hg; [destruct k; discriminate|].
  simpl in Hp. apply andb_true_iff in Hp as [Hd Hp].
  apply andb_true_iff in Hd as [Hs Hd].
  destruct k as [|k]; simpl in Hg.
  - injection Hg as <-. split; now apply negb_true_iff.
  - eauto.
Qed.

(** The result of the loop is empty or a suffix of the path that starts at
    a dot. *)
Lemma Ext_loop_suffix (s : string) (n : nat) :
  path.Ext_loop s n = "" \/
  exists p t, s = p +:+ String "." t /\ path.Ext_loop s n = String "." t.
Proof.
  induction n as [|i IH]; simpl; [now left|].
  destruct (String.get i s) as [c|] eqn:Hg; [|now left].
  destruct (Ascii.eqb c "/"); [now left|].
  destruct (Ascii.eqb c ".") eqn:Hdot; [|exact IH].
  right. apply Ascii.eqb_eq in Hdot; subst c.
  pose proof (get_lt _ _ _ Hg) as Hlt.
  pose proof (substring_split s i ltac:(lia)) as Hs.
  destruct (substring i (String.length s - i) s) as [|d t] eqn:Hsub.
  - exfalso. apply (f_equal String.length) in Hs.
    rewrite length_app in Hs. simpl in Hs.
    assert (String.length (substring 0 i s) <= i) as Hl.
    { clear. revert i; induction s as [|c s IH]; intros [|i]; simpl; try lia.
      specialize (IH i). lia. }
    lia.
  - assert (d = "."%char) as ->.
    { pose proof (get_app_r (substring 0 i s) (String d t) 0) as Hd.
      rewrite <- Hs in Hd. simpl in Hd.
      assert (String.length (substring 0 i s) = i) as Hl.
      { apply (f_equal String.length) in Hs. rewrite length_app in Hs.
        apply (f_equal String.length) in Hsub.
        revert Hlt; clear. revert i; induction s as [|c s IH]; intros [|i] H;
          simpl in *; try lia. rewrite IH; lia. }
      rewrite Hl, Nat.add_0_r, Hg in Hd. now injection Hd. }
    exists (substring 0 i s), t. split; [exact Hs | reflexivity].
Qed.

(** The loop, started anywhere inside a plain tail that follows a dot,
    returns the dot and the tail. *)
Lemma Ext_loop_plain (p t : string) (k : nat) :
  plain t = true -> k <= String.length t ->
  path.Ext_loop (p +:+ String "." t) (String.length p + S k) = String "." t.
Proof.
  intros Hp. induction k as [|k IH]; intros Hk.
  - rewrite Nat.add_1_r. simpl.
    pose proof (get_app_r p (String "." t) 0) as Hg.
    rewrite Nat.add_0_r in Hg. rewrite Hg. simpl.
    rewrite length_app.
    replace (String.length p + String.length (String "." t) - String.length p)
      with (String.length (String "." t)) by lia.
    apply substring_app_r.
  - replace (String.length p + S (S k)) with (S (String.length p + S k)) by lia.
    simpl. rewrite get_app_r. simpl.
    destruct (String.get k t) as [c|] eqn:Hg.
    + destruct (plain_get t k c Hp Hg) as [-> ->]. apply IH. lia.
    + exfalso. clear -Hk Hg. revert k Hk Hg.
      induction t as [|d t IHt]; intros [|k] Hk Hg; simpl in *;
        try discriminate; try lia.
      apply (IHt k); [lia | exact Hg].
Qed.

Lemma Ext_app_plain (p t : string) :
  plain t = true -> path.Ext (p +:+ String "." t) = String "." t.
Proof.
  intros Hp. unfold path.Ext. rewrite length_app. simpl.
  apply Ext_loop_plain; [exact Hp | lia].
Qed.

(** The extension is a suffix of the path. *)
Lemma Ext_suffix (s e : string) :
  path.Ext s = e -> e <> "" -> exists p, s = p +:+ e.
Proof.
  intros He Hne. unfold path.Ext in He.
  destruct (Ext_loop_suffix s (String.length s)) as [H | (p & t & Hs & H)].
  - congruence.
  - exists p. congruence.
Qed.

(** A path ends with [".json"] (or [".csv"]) exactly when that is its
    extension. *)
Lemma Ext_iff_HasSuffix (s t : string) :
  plain t = true ->
  path.Ext s = String "." t <-> strings.HasSuffix s (String "." t) = true.
Proof.
  intros Hp. rewrite HasSuffix_iff. split.
  - intros H. apply (Ext_suffix s _ H). discriminate.
  - intros [p ->]. now apply Ext_app_plain.
Qed.

(** ** The rewrites of [serveHTTP], one at a time *)

Lemma Method_extNegotiate (r : Request) : Method (extNegotiate r) = Method r.
Proof.
  unfold extNegotiate.
  destruct (String.eqb (path.Ext (Path r)) ".json"); [reflexivity|].
  destruct (String.eqb (path.Ext (Path r)) ".csv"); reflexivity.
Qed.

Lemma methodOverride_rest (r : Request) :
  Path (methodOverride r) = Path r /\ Hdr (methodOverride r) = Hdr r /\
  PostForm (methodOverride r) = PostForm r.
Proof.
  unfold methodOverride.
  destruct (String.eqb (Method r) MethodPost); [|now repeat split].
  destruct (_ || _); now repeat split.
Qed.

Lemma canonical_Accept : textproto.CanonicalMIMEHeaderKey "Accept" = "Accept".
Proof. reflexivity. Qed.

(** The source writes ["Content-type"]; the header map stores the canonical key. *)
Lemma canonical_Content_type :
  textproto.CanonicalMIMEHeaderKey "Content-type" = "Content-Type".
Proof. reflexivity. Qed.


Lemma extNegotiate_json (r : Request) (p : string) :
  Path r = p +:+ ".json" ->
  extNegotiate r =
    mkRequest (Method r) p
      (<["Content-Type" := ["application/json"]]>
         (<["Accept" := ["application/json"]]> (Hdr r)))
      (PostForm r).
Proof.
  intros Hp. unfold extNegotiate.
  rewrite Hp, (Ext_app_plain p "json" eq_refl).
  change (String.eqb ".json" ".json") with true. cbv iota.
  rewrite TrimSuffix_app.
  unfold setPath, setHeader, header.Set_. cbn [Method Path Hdr PostForm].
  now rewrite canonical_Accept, canonical_Content_type.
Qed.

Lemma extNegotiate_csv (r : Request) (p : string) :
  Path r = p +:+ ".csv" ->
  extNegotiate r =
    mkRequest (Method r) p (<["Accept" := ["text/csv"]]> (Hdr r)) (PostForm r).
Proof.
  intros Hp. unfold extNegotiate.
  rewrite Hp, (Ext_app_plain p "csv" eq_refl).
  change (String.eqb ".csv" ".json") with false.
  change (String.eqb ".csv" ".csv") with true. cbv iota.
  rewrite TrimSuffix_app.
  unfold setPath, setHeader, header.Set_. cbn [Method Path Hdr PostForm].
  now rewrite canonical_Accept.
Qed.

Lemma extNegotiate_other (r : Request) :
  strings.HasSuffix (Path r) ".json" = false ->
  strings.HasSuffix (Path r) ".csv" = false ->
  extNegotiate r = r.
Proof.
  intros Hj Hc. unfold extNegotiate.
  destruct (String.eqb (path.Ext (Path r)) ".json") eqn:Ej.
  { apply String.eqb_eq in Ej.
    apply (Ext_iff_HasSuffix _ "json" eq_refl) in Ej. congruence. }
  destruct (String.eqb (path.Ext (Path r)) ".csv") eqn:Ec; [|reflexivity].
  apply String.eqb_eq in Ec.
  apply (Ext_iff_HasSuffix _ "csv" eq_refl) in Ec. congruence.
Qed.

Lemma overrides_spec (v : string) :
  String.eqb v MethodGet || String.eqb v MethodPost
  || String.eqb v MethodPatch || String.eqb v MethodDelete = true
  <-> In v overrides.
Proof.
  unfold overrides. simpl. rewrite !orb_true_iff, !String.eqb_eq.
  intuition congruence.
Qed.

(** ** The method override *)



(** ** Content negotiation by suffix *)



(** The three ways [normalize] can go. *)
Lemma normalize_cases (r : Request) :
  (exists p, Path r = p +:+ ".json" /\
     normalize r =
       mkRequest (Method (methodOverride r)) p
         (<["Content-Type" := ["application/json"]]>
            (<["Accept" := ["application/json"]]> (Hdr r)))
         (PostForm r)) \/
  (exists p, Path r = p +:+ ".csv" /\
     normalize r =
       mkRequest (Method (methodOverride r)) p
         (<["Accept" := ["text/csv"]]> (Hdr r)) (PostForm r)) \/
  (strings.HasSuffix (Path r) ".json" = false /\
   strings.HasSuffix (Path r) ".csv" = false /\
   normalize r = methodOverride r).
Proof.
  destruct (methodOverride_rest r) as (HP & HH & HF). unfold normalize.
  destruct (strings.HasSuffix (Path r) ".json") eqn:Hj.
  { left. apply HasSuffix_iff in Hj as [p Hp]. exists p. split; [exact Hp|].
    rewrite <- HP in Hp. rewrite (extNegotiate_json _ p Hp). now rewrite HH, HF. }
  destruct (strings.HasSuffix (Path r) ".csv") eqn:Hc.
  { right; left. apply HasSuffix_iff in Hc as [p Hp]. exists p. split; [exact Hp|].
    rewrite <- HP in Hp. rewrite (extNegotiate_csv _ p Hp). now rewrite HH, HF. }
  right; right. repeat split.
  apply extNegotiate_other; now rewrite HP.
Qed.


(** ** Scheme, Port and URL *)

(** C6. [Scheme] is ["https"] exactly when [Domain] is not empty, and
    ["http"] when it is empty. *)
Theorem Scheme_by_Domain (s : Server) :
  (Scheme s = "https" <-> Domain s <> "") /\
  (Domain s = "" -> Scheme s = "http").
Proof.
  unfold Scheme, UseTLS.
  destruct (String.eqb_spec (Domain s) "") as [E|E]; cbn.
  - split; [split|]; [discriminate | congruence | reflexivity].
  - split; [split|]; [intros _; exact E | reflexivity | congruence].
Qed.

Lemma Scheme_by_Domain_witness :
  Scheme tlsServer = "https" /\ Scheme NewServer = "http".
Proof.
  split.
  - apply (proj1 (Scheme_by_Domain tlsServer)). discriminate.
  - apply (proj2 (Scheme_by_Domain NewServer)). reflexivity.
Defined.

(** C7. [URL] is scheme, ["://"], host and port suffix: the host is [Domain],
    or ["localhost"] when [Domain] is empty; the suffix [":port"] is left
    out exactly when the scheme is ["http"] and the port 80, or the scheme is
    ["https"] and the port 443, and is there in every other case. *)
Theorem URL_composition (s : Server) :
  (defaultPort s -> URL s = Scheme s +:+ "://" +:+ host s) /\
  (~ defaultPort s ->
   URL s = Scheme s +:+ "://" +:+ host s +:+ ":" +:+ itoa (Port s)).
Proof.
  assert (host s = if negb (String.eqb (Domain s) "") then Domain s else "localhost")
    as Hhost.
  { unfold host. destruct (String.eqb_spec (Domain s) "") as [E|E]; cbn;
      destruct (decide (Domain s = "")); congruence. }
  unfold URL, defaultPort. rewrite <- Hhost.
  destruct (String.eqb_spec (Scheme s) "http") as [Eh|Eh];
    destruct (String.eqb_spec (Scheme s) "https") as [Es|Es];
    destruct (Z.eqb_spec (Port s) 80) as [E80|E80];
    destruct (Z.eqb_spec (Port s) 443) as [E443|E443];
    cbn; split; intros H; try reflexivity;
    try (exfalso; apply H; tauto);
    try (exfalso; destruct H as [[? ?]|[? ?]]; congruence).
Qed.

Lemma URL_composition_witness :
  URL (setLn (Some (mkListener 80 None None)) NewServer) = "http://localhost" /\
  URL (setLn (Some (mkListener 443 None None)) tlsServer) = "https://example.com" /\
  URL (setLn (Some (mkListener 443 None None)) NewServer) = "http://localhost:443" /\
  URL (setLn (Some (mkListener 8080 None None)) tlsServer) = "https://example.com:8080".
Proof.
  split; [|split; [|split]].
  - apply (proj1 (URL_composition (setLn (Some (mkListener 80 None None)) NewServer))).
    left. split; reflexivity.
  - apply (proj1 (URL_composition (setLn (Some (mkListener 443 None None)) tlsServer))).
    right. split; reflexivity.
  - apply (proj2 (URL_composition (setLn (Some (mkListener 443 None None)) NewServer))).
    intros [[_ H]|[H _]]; discriminate H.
  - apply (proj2 (URL_composition (setLn (Some (mkListener 8080 None None)) tlsServer))).
    intros [[H _]|[_ H]]; discriminate H.
Defined.

(** C9. A Server without a listener and with an empty [Domain] has port 0
    and URL ["http://localhost:0"]: 0 is neither 80 nor 443, so the suffix
    [":0"] is there. *)
Theorem URL_never_opened (s : Server) :
  ln s = None -> Domain s = "" ->
  Port s = 0%Z /\ URL s = "http://localhost:0".
Proof.
  intros Hl Hd. unfold URL, Scheme, UseTLS, Port. rewrite Hl, Hd.
  split; reflexivity.
Qed.

Lemma URL_never_opened_witness :
  Port NewServer = 0%Z /\ URL NewServer = "http://localhost:0".
Proof. apply (URL_never_opened NewServer); reflexivity. Defined.

(** ** Open *)

Lemma Open_tls (env : Env) (s : Server) (srv : HTTPServer) :
  Domain s <> "" -> server s = Some srv ->
  Open env s =
    Return (setEngine (Serve srv (autocert_NewListener env (Domain s)))
              (setLn (Some (autocert_NewListener env (Domain s))) s), None).
Proof.
  intros Hd Hs. unfold Open.
  destruct (String.eqb_spec (Domain s) "") as [E|_]; [contradiction|].
  cbn. now rewrite Hs.
Qed.

Lemma Open_tcp (env : Env) (s : Server) :
  Domain s = "" ->
  Open env s =
    match net_Listen env "tcp" (Addr s) with
    | Err e => Return (setLn None s, Some e)
    | Ok l =>
        match server s with
        | None => Panic
        | Some srv => Return (setEngine (Serve srv l) (setLn (Some l) s), None)
        end
    end.
Proof. intros Hd. unfold Open. rewrite Hd. reflexivity. Qed.

(** An [Open] that returns an error has only reset the listener field. *)
Lemma Open_failed (env : Env) (s s' : Server) (e : error) :
  Open env s = Return (s', Some e) -> s' = setLn None s.
Proof.
  unfold Open.
  destruct (if negb (String.eqb (Domain s) "") then _ else _) as [l|e'].
  - destruct (server s); discriminate.
  - now intros [= <- _].
Qed.

(** Against C3 as stated.  With a domain set, a provisioning failure inside
    [Open] is not returned: on [brokenEnv] the autocert listener is broken from the start, and
    [Open] returns nil. *)
Lemma Open_tls_failure_not_returned :
  Domain tlsServer <> "" /\
  acceptErr (autocert_NewListener brokenEnv (Domain tlsServer))
    = Some (AcmeError "example.com") /\
  (exists s', Open brokenEnv tlsServer = Return (s', None)) /\
  ~ (exists s' e, Open brokenEnv tlsServer = Return (s', Some e) /\ CertificateError e).
Proof.
  split; [discriminate|]. split; [reflexivity|]. split.
  - eexists. reflexivity.
  - intros (s' & e & H & _). discriminate H.
Qed.

(** C3, as the code has it. With a domain set, [Open] returns nil whatever
    happens to the certificate: the listener of [autocert.NewListener] is
    stored and served, and no error comes back.  With an empty domain,
    [Open] returns the error of [net.Listen] when the address cannot be
    bound, and leaves the listener nil. *)
Theorem Open_errors (env : Env) (s : Server) :
  (Domain s <> "" -> forall srv, server s = Some srv ->
   exists s', Open env s = Return (s', None) /\
              ln s' = Some (autocert_NewListener env (Domain s))) /\
  (Domain s = "" -> forall e, net_Listen env "tcp" (Addr s) = Err e ->
   Open env s = Return (setLn None s, Some e)).
Proof.
  split.
  - intros Hd srv Hs. rewrite (Open_tls env s srv Hd Hs).
    eexists. split; reflexivity.
  - intros Hd e He. rewrite (Open_tcp env s Hd), He. reflexivity.
Qed.

Lemma Open_errors_witness :
  (exists s', Open brokenEnv tlsServer = Return (s', None) /\
              ln s' = Some (autocert_NewListener brokenEnv (Domain tlsServer))) /\
  Open brokenEnv NewServer = Return (setLn None NewServer, Some (OpError "listen" "")) /\
  BindError (OpError "listen" "").
Proof.
  split; [|split].
  - apply (proj1 (Open_errors brokenEnv tlsServer) ltac:(discriminate)
             emptyHTTPServer eq_refl).
  - apply (proj2 (Open_errors brokenEnv NewServer) eq_refl). reflexivity.
  - exists "". reflexivity.
Defined.

(** ** The polling of Shutdown *)

Lemma pollLoop_S (f : nat) (rnd : nat -> Z) (k : nat) (b now deadline drain : Z) :
  pollLoop (S f) rnd k b now deadline drain =
    if (drain <=? now)%Z then Some (Idle now)
    else if (deadline <=? now + (b + Intn rnd k (b / 10)))%Z then Some Expired
         else pollLoop f rnd (S k) (Z.min (2 * b) shutdownPollIntervalMax)
                (now + (b + Intn rnd k (b / 10)))%Z deadline drain.
Proof. reflexivity. Qed.

Lemma Intn_bounds (rnd : nat -> Z) (k : nat) (n : Z) :
  (0 < n)%Z -> (0 <= Intn rnd k n < n)%Z.
Proof. intros H. unfold Intn. now apply Z.mod_pos_bound. Qed.

Lemma interval_bounds (rnd : nat -> Z) (k : nat) (b : Z) :
  (Millisecond <= b)%Z -> (b <= b + Intn rnd k (b / 10))%Z.
Proof.
  unfold Millisecond. intros H.
  assert (0 < b / 10)%Z by (apply Z.div_str_pos; lia).
  pose proof (Intn_bounds rnd k (b / 10) ltac:(assumption)). lia.
Qed.

Lemma next_base (b : Z) :
  (Millisecond <= b)%Z -> (Millisecond <= Z.min (2 * b) shutdownPollIntervalMax)%Z.
Proof. unfold shutdownPollIntervalMax, Millisecond. lia. Qed.

(** With a millisecond at least between two polls the loop ends before its
    fuel does. *)
Lemma pollLoop_returns (fuel : nat) (rnd : nat -> Z) (k : nat) (b now deadline drain : Z) :
  (Millisecond <= b)%Z ->
  (deadline - now < (Z.of_nat fuel + 1) * Millisecond)%Z ->
  exists p, pollLoop (S fuel) rnd k b now deadline drain = Some p.
Proof.
  revert k b now. induction fuel as [|fuel IH]; intros k b now Hb Hf;
    rewrite pollLoop_S; pose proof (interval_bounds rnd k b Hb) as Hi;
    destruct (Z.leb_spec drain now); eauto;
    destruct (Z.leb_spec deadline (now + (b + Intn rnd k (b / 10)))); eauto.
  - exfalso. cbn in Hf. lia.
  - apply IH; [now apply next_base | lia].
Qed.

Lemma pollLoop_mono (f : nat) (rnd : nat -> Z) (k : nat) (b now deadline drain : Z)
    (p : polled) (f' : nat) :
  pollLoop f rnd k b now deadline drain = Some p -> (f <= f')%nat ->
  pollLoop f' rnd k b now deadline drain = Some p.
Proof.
  revert k b now f'. induction f as [|f IH]; intros k b now f' H Hle; [discriminate|].
  destruct f' as [|f']; [lia|]. rewrite pollLoop_S in *.
  destruct (drain <=? now)%Z; [exact H|].
  destruct (deadline <=? _)%Z; [exact H|].
  apply IH; [exact H | lia].
Qed.

(** A poll that finds the connections idle comes when they are, and before
    the deadline unless it is the very first. *)
Lemma pollLoop_Idle (fuel : nat) (rnd : nat -> Z) (k : nat) (b now deadline drain t : Z) :
  (Millisecond <= b)%Z ->
  pollLoop fuel rnd k b now deadline drain = Some (Idle t) ->
  (drain <= t)%Z /\ (t = now \/ (now < t < deadline)%Z).
Proof.
  revert k b now. induction fuel as [|fuel IH]; intros k b now Hb H; [discriminate|].
  rewrite pollLoop_S in H. pose proof (interval_bounds rnd k b Hb) as Hi.
  unfold Millisecond in Hb.
  destruct (Z.leb_spec drain now).
  - injection H as <-. split; [assumption | now left].
  - destruct (Z.leb_spec deadline (now + (b + Intn rnd k (b / 10)))); [discriminate|].
    apply IH in H; [|now apply next_base]. lia.
Qed.

Ltac poll_step :=
  rewrite pollLoop_S;
  match goal with
  | |- context [Intn ?rnd ?k (?b / 10)] =>
      let n := eval vm_compute in (b / 10)%Z in
      change (b / 10)%Z with n;
      let J := fresh "J" in
      pose proof (Intn_bounds rnd k n eq_refl) as J;
      let j := fresh "j" in
      set (j := Intn rnd k n) in *; clearbody j
  end;
  match goal with
  | |- context [Z.min (2 * ?b) shutdownPollIntervalMax] =>
      let m := eval vm_compute in (Z.min (2 * b) shutdownPollIntervalMax) in
      change (Z.min (2 * b) shutdownPollIntervalMax) with m
  end.

Ltac leb_case :=
  match goal with
  | |- context [if (?a <=? ?b)%Z then _ else _] => destruct (Z.leb_spec a b)
  end.

(** Under a deadline of one second the polls come after 1, 3, 7, ... and
    511 milliseconds, each later by the jitter drawn so far, which is less
    than a tenth; the next one would come after the deadline.  So the last
    poll is between 511 and 562.1 milliseconds. *)
Lemma pollLoop_expires (rnd : nat -> Z) (drain : Z) :
  (562100000 <= drain)%Z ->
  pollLoop 10 rnd 0 1000000 0 1000000000 drain = Some Expired.
Proof.
  intros Hd.
  do 10 (poll_step; repeat leb_case; try reflexivity; try (exfalso; lia)).
Qed.

Lemma pollLoop_finds_idle (rnd : nat -> Z) (drain : Z) :
  (drain <= 511000000)%Z ->
  exists t, pollLoop 10 rnd 0 1000000 0 1000000000 drain = Some (Idle t) /\
            (drain <= t)%Z /\ (0 <= t < 562100000)%Z.
Proof.
  intros Hd.
  do 10 (poll_step; repeat leb_case;
         try (eexists; split; [reflexivity | lia]); try (exfalso; lia)).
Qed.


(** ** Shutdown *)

Lemma pollFuel_enough (timeout : Z) :
  exists fuel, pollFuel timeout = S fuel /\
               (timeout - 0 < (Z.of_nat fuel + 1) * Millisecond)%Z.
Proof.
  exists (Z.to_nat (timeout / Millisecond)). unfold pollFuel.
  split; [apply Nat.add_1_r|]. unfold Millisecond.
  pose proof (Z.mul_succ_div_gt timeout 1000000 ltac:(lia)).
  destruct (Z.neg_nonneg_cases timeout) as [Hn|Hn].
  - assert (0 <= Z.of_nat (Z.to_nat (timeout / 1000000)))%Z by lia. lia.
  - rewrite Z2Nat.id by (apply Z.div_pos; lia). lia.
Qed.

(** The fuel of [Shutdown] is never used up. *)
Lemma Shutdown_polls (rnd : nat -> Z) (timeout drain : Z) :
  exists p, pollLoop (pollFuel timeout) rnd 0 Millisecond 0 timeout drain = Some p.
Proof.
  destruct (pollFuel_enough timeout) as (fuel & -> & Hf).
  apply pollLoop_returns; [lia | exact Hf].
Qed.

(** The two ways [Shutdown] ends. *)
Lemma Shutdown_cases (rnd : nat -> Z) (srv : HTTPServer) (timeout : Z) :
  (exists t, Shutdown rnd srv timeout =
               mkShutdown (mkHTTPServer [] [] true) (closeListeners (listeners srv)) t /\
             (drainTime srv <= t)%Z /\ (t = 0 \/ 0 < t < timeout)%Z) \/
  Shutdown rnd srv timeout =
    mkShutdown (mkHTTPServer [] (stillInflight timeout (inflight srv)) true)
      (Some DeadlineExceeded) timeout.
Proof.
  unfold Shutdown.
  destruct (pollLoop _ _ _ _ _ _ _) as [[t|]|] eqn:H; [left | now right | now right].
  apply pollLoop_Idle in H; [|lia]. exists t. split; [reflexivity|]. lia.
Qed.

Lemma Shutdown_engine (rnd : nat -> Z) (srv : HTTPServer) (timeout : Z) :
  listeners (engine (Shutdown rnd srv timeout)) = [] /\
  inShutdown (engine (Shutdown rnd srv timeout)) = true.
Proof.
  destruct (Shutdown_cases rnd srv timeout) as [(t & -> & _) | ->]; now split.
Qed.

(** With nothing in flight the first poll ends [Shutdown]. *)
Lemma Shutdown_idle (rnd : nat -> Z) (srv : HTTPServer) (timeout : Z) :
  inflight srv = [] ->
  Shutdown rnd srv timeout =
    mkShutdown (mkHTTPServer [] [] true) (closeListeners (listeners srv)) 0.
Proof.
  intros H. unfold Shutdown, drainTime. rewrite H.
  destruct (pollFuel_enough timeout) as (fuel & -> & _). reflexivity.
Qed.

(** Under [ShutdownTimeout]: requests that need 562.1 ms or more are not
    found idle by any poll, requests that need 511 ms at most are. *)
Lemma Shutdown_second_late (rnd : nat -> Z) (srv : HTTPServer) :
  (562100000 <= drainTime srv)%Z ->
  Shutdown rnd srv ShutdownTimeout =
    mkShutdown (mkHTTPServer [] (stillInflight ShutdownTimeout (inflight srv)) true)
      (Some DeadlineExceeded) ShutdownTimeout.
Proof.
  intros H. unfold Shutdown.
  change (pollFuel ShutdownTimeout) with 1001%nat.
  change Millisecond with 1000000%Z. change ShutdownTimeout with 1000000000%Z.
  now rewrite (pollLoop_mono 10 _ _ _ _ _ _ _ 1001 (pollLoop_expires rnd _ H))
    by (apply Nat.leb_le; reflexivity).
Qed.

Lemma Shutdown_second_early (rnd : nat -> Z) (srv : HTTPServer) :
  (drainTime srv <= 511000000)%Z ->
  exists t, Shutdown rnd srv ShutdownTimeout =
              mkShutdown (mkHTTPServer [] [] true) (closeListeners (listeners srv)) t /\
            (drainTime srv <= t < 562100000)%Z.
Proof.
  intros H. destruct (pollLoop_finds_idle rnd _ H) as (t & Ht & H1 & H2).
  exists t. unfold Shutdown.
  change (pollFuel ShutdownTimeout) with 1001%nat.
  change Millisecond with 1000000%Z. change ShutdownTimeout with 1000000000%Z.
  rewrite (pollLoop_mono 10 _ _ _ _ _ _ _ 1001 Ht) by (apply Nat.leb_le; reflexivity).
  split; [reflexivity | lia].
Qed.

(** ** Close *)


Lemma Close_engine (rnd : nat -> Z) (s : Server) (srv : HTTPServer) :
  server s = Some srv ->
  Close rnd s =
    Return (mkClosed (setEngine (engine (Shutdown rnd srv ShutdownTimeout)) s)
              (err (Shutdown rnd srv ShutdownTimeout))
              (waited (Shutdown rnd srv ShutdownTimeout))).
Proof. intros H. unfold Close. now rewrite H. Qed.


Lemma Serve_shut (srv : HTTPServer) (l : Listener) :
  inShutdown srv = true -> Serve srv l = srv.
Proof. intros H. unfold Serve. now rewrite H. Qed.








(** ** The reserved keys *)

(** C8. Two Servers that differ only in [HashKey] and [BlockKey] cannot be
    told apart: [Scheme], [Port] and [URL] agree, [serveHTTP] hands the same
    request to the same router, the handler prints the same, and [Open] and
    [Close] end the same way,
    with the same error and the same wait, in Servers that again differ only
    in those keys. *)
Theorem keys_unused (s1 s2 : Server) :
  keysApart s1 s2 ->
  UseTLS s1 = UseTLS s2 /\ Scheme s1 = Scheme s2 /\ Port s1 = Port s2 /\
  URL s1 = URL s2 /\
  (forall (Response : Type) (mux : Router -> Request -> Response) (r : Request),
     serveHTTP mux s1 r = serveHTTP mux s2 r) /\
  (forall (h : Handler) (r : Request), runHandler h s1 r = runHandler h s2 r) /\
  (forall env : Env,
     sameOutcome (fun a b => keysApart a.1 b.1 /\ a.2 = b.2 /\
                             HashKey a.1 = HashKey s1 /\ BlockKey a.1 = BlockKey s1 /\
                             HashKey b.1 = HashKey s2 /\ BlockKey b.1 = BlockKey s2)
       (Open env s1) (Open env s2)) /\
  (forall rnd : nat -> Z,
     sameOutcome (fun c1 c2 => keysApart (after c1) (after c2) /\
                               returned c1 = returned c2 /\ blocked c1 = blocked c2 /\
                               HashKey (after c1) = HashKey s1 /\
                               BlockKey (after c1) = BlockKey s1 /\
                               HashKey (after c2) = HashKey s2 /\
                               BlockKey (after c2) = BlockKey s2)
       (Close rnd s1) (Close rnd s2)).
Proof.
  intros (Hl & Hs & Hr & Ha & Hd).
  assert (Scheme s1 = Scheme s2) as HS by (unfold Scheme, UseTLS; now rewrite Hd).
  assert (Port s1 = Port s2) as HP by (unfold Port; now rewrite Hl).
  split; [unfold UseTLS; now rewrite Hd|].
  split; [exact HS|]. split; [exact HP|].
  split; [unfold URL; now rewrite HS, HP, Hd|].
  split; [intros Response mux r; unfold serveHTTP; now rewrite Hr|].
  split; [now intros [] r|].
  split.
  - intros env. unfold Open. rewrite Hd, Ha, Hs.
    destruct (if negb (String.eqb (Domain s2) "") then _ else _) as [l|e]; cbn.
    + destruct (server s2); cbn; [|exact I].
      unfold keysApart; cbn. now repeat split.
    + unfold keysApart; cbn. now repeat split.
  - intros rnd. unfold Close. rewrite Hs. destruct (server s2) as [srv|]; [|exact I].
    generalize (Shutdown rnd srv ShutdownTimeout). intros sd.
    unfold sameOutcome, keysApart; cbn. now repeat split.
Qed.

Lemma keys_unused_witness :
  URL (setHashKey "k1" (setBlockKey "k2" stickyServer)) = URL stickyServer /\
  sameOutcome (fun c1 c2 => returned c1 = returned c2 /\ blocked c1 = blocked c2)
    (Close noJitter (setHashKey "k1" (setBlockKey "k2" stickyServer)))
    (Close noJitter stickyServer).
Proof.
  destruct (keys_unused (setHashKey "k1" (setBlockKey "k2" stickyServer)) stickyServer)
    as (_ & _ & _ & HU & _ & _ & _ & HC).
  - unfold keysApart. repeat split; reflexivity.
  - split; [exact HU|]. specialize (HC noJitter).
    destruct (Close noJitter (setHashKey "k1" (setBlockKey "k2" stickyServer))),
             (Close noJitter stickyServer); cbn in *; tauto.
Defined.

(** * Further properties of the code *)

(** ** The normaliser beyond one pass *)

Lemma PostFormValue_setMethod (v : string) (r : Request) (k : string) :
  PostFormValue (setMethod v r) k = PostFormValue r k.
Proof. reflexivity. Qed.

Lemma methodOverride_cases (r : Request) :
  methodOverride r = r \/
  (exists v, In v overrides /\ PostFormValue r "_method" = v /\
             methodOverride r = setMethod v r).
Proof.
  unfold methodOverride.
  destruct (String.eqb (Method r) MethodPost); [|now left].
  destruct (_ || _) eqn:Hv; [|now left].
  right. exists (PostFormValue r "_method"). apply overrides_spec in Hv. now repeat split.
Qed.

Lemma methodOverride_idem (r : Request) :
  methodOverride (methodOverride r) = methodOverride r.
Proof.
  destruct (methodOverride_cases r) as [H | (v & Hin & Hv & H)]; rewrite H.
  - exact H.
  - unfold methodOverride. cbn [Method]. rewrite PostFormValue_setMethod, Hv.
    unfold overrides in Hin. simpl in Hin.
    destruct Hin as [<- | [<- | [<- | [<- | []]]]]; reflexivity.
Qed.

Lemma PostFormValue_extNegotiate (r : Request) (k : string) :
  PostFormValue (extNegotiate r) k = PostFormValue r k.
Proof.
  unfold extNegotiate.
  destruct (String.eqb (path.Ext (Path r)) ".json"); [reflexivity|].
  destruct (String.eqb (path.Ext (Path r)) ".csv"); reflexivity.
Qed.

Lemma setMethod_same (x : Request) : setMethod (Method x) x = x.
Proof. now destruct x. Qed.

(** A request the override leaves alone is left alone after the extension
    switch as well: the switch touches neither the method nor the form. *)
Lemma methodOverride_after_switch (x : Request) :
  methodOverride x = x -> methodOverride (extNegotiate x) = extNegotiate x.
Proof.
  unfold methodOverride. cbv zeta.
  rewrite Method_extNegotiate, PostFormValue_extNegotiate.
  destruct (String.eqb (Method x) MethodPost); [|reflexivity].
  destruct (_ || _); [|reflexivity].
  intros H. apply (f_equal Method) in H. cbn in H.
  rewrite H, <- (Method_extNegotiate x). apply setMethod_same.
Qed.

(** X1. A second pass of the normaliser never changes the method again: the
    override is idempotent, and normalising twice is normalising once and
    then running the extension switch once more. *)
Theorem second_pass_keeps_method (r : Request) :
  methodOverride (methodOverride r) = methodOverride r /\
  normalize (normalize r) = extNegotiate (normalize r) /\
  Method (normalize (normalize r)) = Method (normalize r).
Proof.
  assert (normalize (normalize r) = extNegotiate (normalize r)) as H.
  { unfold normalize.
    now rewrite (methodOverride_after_switch _ (methodOverride_idem r)). }
  split; [apply methodOverride_idem|]. split; [exact H|].
  rewrite H. apply Method_extNegotiate.
Qed.

(** X3. The normaliser writes two headers at most: every header but
    Accept and Content-Type reaches the router as it came. *)
Theorem normalize_preserves (r : Request) (k : string) :
  k <> "Accept" -> k <> "Content-Type" ->
  Hdr (normalize r) !! k = Hdr r !! k.
Proof.
  intros Ha Hc.
  destruct (normalize_cases r) as [(p & _ & ->) | [(p & _ & ->) | (_ & _ & ->)]];
    cbn [Hdr].
  - rewrite lookup_insert_ne by congruence. now rewrite lookup_insert_ne by congruence.
  - now rewrite lookup_insert_ne by congruence.
  - destruct (methodOverride_rest r) as (_ & HH & _). now rewrite HH.
Qed.

Lemma normalize_preserves_witness :
  Hdr (normalize reportCSV) !! "User-Agent" = Hdr reportCSV !! "User-Agent".
Proof. apply (normalize_preserves reportCSV "User-Agent"); discriminate. Defined.

Lemma get_ge (t : string) (k : nat) : String.length t <= k -> String.get k t = None.
Proof.
  revert k; induction t as [|d t IH]; intros [|k] H; simpl in *; try reflexivity; try lia.
  apply IH. lia.
Qed.

Lemma get_some (t : string) (k : nat) : k < String.length t -> exists c, String.get k t = Some c.
Proof.
  intros H. destruct (String.get k t) as [c|] eqn:E; [now exists c|].
  exfalso. revert k H E. induction t as [|d t IH]; intros [|k] H E; simpl in *;
    try discriminate; try lia.
  apply (IH k); [lia | exact E].
Qed.

(** The loop stops at a slash that only plain bytes follow. *)
Lemma Ext_loop_slash (p t : string) (k : nat) :
  plain t = true -> k <= String.length t ->
  path.Ext_loop (p +:+ String "/" t) (String.length p + S k) = "".
Proof.
  intros Hp. induction k as [|k IH]; intros Hk.
  - rewrite Nat.add_1_r. simpl.
    pose proof (get_app_r p (String "/" t) 0) as Hg.
    rewrite Nat.add_0_r in Hg. now rewrite Hg.
  - replace (String.length p + S (S k)) with (S (String.length p + S k)) by lia.
    simpl. rewrite get_app_r. simpl.
    destruct (get_some t k ltac:(lia)) as [c Hg]. rewrite Hg.
    destruct (plain_get t k c Hp Hg) as [-> ->]. apply IH. lia.
Qed.

Lemma Ext_loop_all_plain (t : string) (k : nat) :
  plain t = true -> k <= String.length t -> path.Ext_loop t k = "".
Proof.
  intros Hp. induction k as [|k IH]; intros Hk; [reflexivity|].
  simpl. destruct (get_some t k ltac:(lia)) as [c Hg]. rewrite Hg.
  destruct (plain_get t k c Hp Hg) as [-> ->]. apply IH. lia.
Qed.

Lemma extNegotiate_no_ext (r : Request) : path.Ext (Path r) = "" -> extNegotiate r = r.
Proof. intros H. unfold extNegotiate. now rewrite H. Qed.

(** X4. Only the last element of the path counts: a path whose last
    element has no dot, whatever dots its directories have, and a path
    without slash and dot, reach the router with path and headers as they
    came. *)
Theorem dot_in_directory_ignored (r : Request) :
  (forall p t : string,
     Path r = p +:+ String "/" t -> plain t = true ->
     Path (normalize r) = Path r /\ Hdr (normalize r) = Hdr r) /\
  (plain (Path r) = true ->
   Path (normalize r) = Path r /\ Hdr (normalize r) = Hdr r).
Proof.
  destruct (methodOverride_rest r) as (HP & HH & _).
  assert (path.Ext (Path r) = "" ->
          Path (normalize r) = Path r /\ Hdr (normalize r) = Hdr r) as Hno.
  { intros He. unfold normalize. rewrite extNegotiate_no_ext by now rewrite HP.
    now split. }
  split.
  - intros p t Hp Ht. apply Hno. rewrite Hp. unfold path.Ext.
    rewrite length_app. simpl. apply Ext_loop_slash; [exact Ht | lia].
  - intros Ht. apply Hno. unfold path.Ext. now apply Ext_loop_all_plain.
Qed.

Lemma dot_in_directory_ignored_witness :
  Path (normalize (mkRequest "GET" "/v1.json/users" ∅ ∅)) = "/v1.json/users" /\
  Hdr (normalize (mkRequest "GET" "/v1.json/users" ∅ ∅)) = ∅.
Proof.
  apply (proj1 (dot_in_directory_ignored (mkRequest "GET" "/v1.json/users" ∅ ∅))
           "/v1.json" "users"); reflexivity.
Defined.

Lemma Method_normalize (r : Request) : Method (normalize r) = Method (methodOverride r).
Proof. apply Method_extNegotiate. Qed.

(** X5. The override reads the first value of the form field only.  For a
    POST: a first value among GET, POST, PATCH and DELETE becomes the method,
    whatever follows it; with the field missing or empty, or with another
    first value, the request is routed as POST. *)
Theorem override_reads_first_value (r : Request) :
  Method r = MethodPost ->
  (forall v rest, PostForm r !! "_method" = Some (v :: rest) ->
     In v overrides -> Method (normalize r) = v) /\
  (forall v rest, PostForm r !! "_method" = Some (v :: rest) ->
     ~ In v overrides -> Method (normalize r) = MethodPost) /\
  (PostForm r !! "_method" = None \/ PostForm r !! "_method" = Some [] ->
   Method (normalize r) = MethodPost).
Proof.
  intros Hm. rewrite Method_normalize. unfold methodOverride.
  rewrite Hm, String.eqb_refl.
  assert (forall v, PostFormValue r "_method" = v -> ~ In v overrides ->
                    Method (if String.eqb v MethodGet || String.eqb v MethodPost
                               || String.eqb v MethodPatch || String.eqb v MethodDelete
                            then setMethod v r else r) = MethodPost) as Hnot.
  { intros v _ Hn. destruct (_ || _) eqn:Hv; [|exact Hm].
    apply overrides_spec in Hv. contradiction. }
  split; [|split].
  - intros v rest Hf Hin. unfold PostFormValue. rewrite Hf.
    apply overrides_spec in Hin. now rewrite Hin.
  - intros v rest Hf Hn. cbv zeta.
    assert (PostFormValue r "_method" = v) as E
      by (unfold PostFormValue; now rewrite Hf).
    rewrite E. now apply Hnot.
  - intros H. cbv zeta.
    assert (PostFormValue r "_method" = "") as E.
    { unfold PostFormValue. destruct H as [-> | ->]; reflexivity. }
    rewrite E. exact Hm.
Qed.

Lemma override_reads_first_value_witness :
  Method (normalize (mkRequest "POST" "/items/7" ∅ {["_method" := ["PATCH"; "PUT"]]}))
    = "PATCH" /\
  Method (normalize (mkRequest "POST" "/items/7" ∅ {["_method" := ["PUT"; "PATCH"]]}))
    = "POST" /\
  Method (normalize (mkRequest "POST" "/items/7" ∅ ∅)) = "POST".
Proof.
  split; [|split].
  - apply (proj1 (override_reads_first_value
             (mkRequest "POST" "/items/7" ∅ {["_method" := ["PATCH"; "PUT"]]}) eq_refl)
             "PATCH" ["PUT"]); [reflexivity | vm_compute; tauto].
  - apply (proj1 (proj2 (override_reads_first_value
             (mkRequest "POST" "/items/7" ∅ {["_method" := ["PUT"; "PATCH"]]}) eq_refl))
             "PUT" ["PATCH"]); [reflexivity|].
    vm_compute. intros H. decompose [or] H; try discriminate; assumption.
  - apply (proj2 (proj2 (override_reads_first_value
             (mkRequest "POST" "/items/7" ∅ ∅) eq_refl))).
    left. reflexivity.
Defined.

(** ** The lifecycle beyond a single call *)

Lemma URL_plain (s : Server) :
  Domain s = "" ->
  URL s = if (Port s =? 80)%Z then "http://localhost"
          else "http://localhost:" +:+ itoa (Port s).
Proof.
  intros Hd. unfold URL, Scheme, UseTLS. rewrite Hd. cbn.
  destruct (Port s =? 80)%Z; reflexivity.
Qed.

Lemma URL_tls_443 (s : Server) :
  Domain s <> "" -> Port s = 443%Z -> URL s = "https://" +:+ Domain s.
Proof.
  intros Hd Hp. unfold URL, Scheme, UseTLS. rewrite Hp.
  destruct (String.eqb_spec (Domain s) "") as [E|_]; [contradiction|]. reflexivity.
Qed.

(** X6. A plain [Open] that binds reports what it bound: it returns nil,
    [Port] is the port of the listener the system gave (so an empty address
    shows its ephemeral port), [URL] is [http://localhost] with that port
    unless it is 80, and the engine is handed the listener. *)
Theorem Open_plain_success (env : Env) (s : Server) (l : Listener) (srv : HTTPServer) :
  Domain s = "" -> net_Listen env "tcp" (Addr s) = Ok l -> server s = Some srv ->
  exists s',
    Open env s = Return (s', None) /\ ln s' = Some l /\ Port s' = port l /\
    URL s' = (if (port l =? 80)%Z then "http://localhost"
              else "http://localhost:" +:+ itoa (port l)) /\
    server s' = Some (Serve srv l).
Proof.
  intros Hd Hl Hs. rewrite (Open_tcp env s Hd), Hl, Hs.
  eexists. split; [reflexivity|]. split; [reflexivity|]. split; [reflexivity|].
  split; [|reflexivity]. now rewrite URL_plain.
Qed.

Lemma Open_plain_success_witness :
  exists s', Open goodEnv NewServer = Return (s', None) /\ Port s' = 8080%Z /\
             URL s' = "http://localhost:8080".
Proof.
  destruct (Open_plain_success goodEnv NewServer (mkListener 8080 None None)
              emptyHTTPServer eq_refl eq_refl eq_refl)
    as (s' & H1 & _ & H2 & H3 & _).
  exists s'. exact (conj H1 (conj H2 H3)).
Defined.

(** X7. With a domain set [Open] does not look at [Addr] and does not call
    [net.Listen]: under any address and any answer of [net.Listen] it stores
    the same autocert listener and returns nil; when that listener is on
    port 443 the URL is [https://] and the domain, without port. *)
Theorem Open_tls_ignores_Addr (env1 env2 : Env) (s : Server) (a : string) (srv : HTTPServer) :
  Domain s <> "" -> server s = Some srv ->
  autocert_NewListener env1 (Domain s) = autocert_NewListener env2 (Domain s) ->
  exists s',
    Open env2 s = Return (s', None) /\
    Open env1 (setAddr a s) = Return (setAddr a s', None) /\
    (port (autocert_NewListener env2 (Domain s)) = 443%Z ->
     URL s' = "https://" +:+ Domain s).
Proof.
  intros Hd Hs He.
  rewrite (Open_tls env2 s srv Hd Hs).
  rewrite (Open_tls env1 (setAddr a s) srv Hd Hs). cbn [Domain setAddr]. rewrite He.
  eexists. split; [reflexivity|]. split; [reflexivity|].
  intros Hp.
  exact (URL_tls_443
           (setEngine (Serve srv (autocert_NewListener env2 (Domain s)))
              (setLn (Some (autocert_NewListener env2 (Domain s))) s)) Hd Hp).
Qed.

Lemma Open_tls_ignores_Addr_witness :
  exists s', Open goodEnv tlsServer = Return (s', None) /\
             Open stickyEnv (setAddr "256.0.0.1:http" tlsServer)
               = Return (setAddr "256.0.0.1:http" s', None) /\
             URL s' = "https://example.com".
Proof.
  destruct (Open_tls_ignores_Addr stickyEnv goodEnv tlsServer "256.0.0.1:http"
              emptyHTTPServer ltac:(discriminate) eq_refl eq_refl)
    as (s' & H1 & H2 & H3).
  exists s'. split; [exact H1|]. split; [exact H2|]. apply H3. reflexivity.
Defined.

(** X8. An error of [Open] is always the error of [net.Listen] on [Addr]
    with an empty domain, and it resets the listener field: afterwards
    [Port] is 0 and [URL] is [http://localhost:0], also on a Server that was
    serving before, whose engine is left as it was. *)
Theorem Open_error_shape (env : Env) (s s' : Server) (e : error) :
  Open env s = Return (s', Some e) ->
  Domain s = "" /\ net_Listen env "tcp" (Addr s) = Err e /\
  ln s' = None /\ Port s' = 0%Z /\ URL s' = "http://localhost:0" /\
  server s' = server s.
Proof.
  intros Ho. pose proof (Open_failed env s s' e Ho) as ->.
  unfold Open in Ho.
  destruct (String.eqb_spec (Domain s) "") as [Hd|Hd]; cbn in Ho.
  - destruct (net_Listen env "tcp" (Addr s)) as [l|e'] eqn:Hl.
    + destruct (server s); discriminate.
    + injection Ho as <-.
      split; [exact Hd|]. split; [reflexivity|]. split; [reflexivity|].
      split; [reflexivity|]. split; [|reflexivity].
      rewrite URL_plain by exact Hd. reflexivity.
  - destruct (server s); discriminate.
Qed.

Lemma Open_error_shape_witness :
  Port servingServer = 8080%Z /\
  Port (setLn None servingServer) = 0%Z /\
  server (setLn None servingServer) = server servingServer.
Proof.
  split; [reflexivity|].
  destruct (Open_error_shape brokenEnv servingServer (setLn None servingServer)
              (OpError "listen" "") eq_refl) as (_ & _ & _ & H1 & _ & H2).
  exact (conj H1 H2).
Defined.

(** X9. A Server cannot be opened again after [Close]: a later [Open]
    binds its listener and may return nil, but the engine, once shut down,
    takes no listener, so nothing is ever served. *)
Theorem Open_after_Close_serves_nothing
    (rnd : nat -> Z) (env : Env) (s s' : Server) (c : closed) (e : option error) :
  Close rnd s = Return c -> Open env (after c) = Return (s', e) ->
  exists srv, server s' = Some srv /\ listeners srv = [] /\ inShutdown srv = true.
Proof.
  unfold Close. destruct (server s) as [srv|]; [|discriminate].
  intros [= <-]. cbn [after].
  destruct (Shutdown_engine rnd srv ShutdownTimeout) as (Hl & Hsd).
  unfold Open. cbn [Domain Addr server setEngine].
  destruct (if negb (String.eqb (Domain s) "") then _ else _) as [l|e'].
  - intros [= <- _]. rewrite (Serve_shut _ l Hsd).
    eexists. split; [reflexivity|]. now split.
  - intros [= <- _]. eexists. split; [reflexivity|]. now split.
Qed.

Lemma Open_after_Close_serves_nothing_witness :
  exists c s' srv,
    Close noJitter NewServer = Return c /\ Open goodEnv (after c) = Return (s', None) /\
    Port s' = 8080%Z /\ server s' = Some srv /\ listeners srv = [].
Proof.
  destruct (Open_after_Close_serves_nothing noJitter goodEnv NewServer
              (setEngine (mkHTTPServer [] [] true)
                 (setLn (Some (mkListener 8080 None None)) NewServer))
              (mkClosed (setEngine (mkHTTPServer [] [] true) NewServer) None 0)
              None eq_refl eq_refl) as (srv & H1 & H2 & _).
  eexists _, _, srv. split; [reflexivity|]. split; [reflexivity|].
  split; [reflexivity|]. split; [exact H1 | exact H2].
Defined.

(** X11. [Open] never lets go of a listener: on a Server that is already
    serving, a second [Open] leaves every tracked listener and every
    connection with the engine, adds at most the new listener, and moves
    [Port] to the new one. *)
Theorem Open_keeps_earlier_listeners
    (env : Env) (s s' : Server) (srv : HTTPServer) (e : option error) :
  server s = Some srv -> Open env s = Return (s', e) ->
  exists srv' new,
    server s' = Some srv' /\
    listeners srv' = (new ++ listeners srv)%list /\ (length new <= 1)%nat /\
    inflight srv' = inflight srv /\ inShutdown srv' = inShutdown srv /\
    (forall l, new = [l] -> ln s' = Some l /\ Port s' = port l).
Proof.
  intros Hs. unfold Open. rewrite Hs.
  destruct (if negb (String.eqb (Domain s) "") then _ else _) as [l|e'].
  - intros [= <- <-]. cbn. unfold Serve.
    destruct (inShutdown srv) eqn:Hsd.
    + exists srv, []. split; [reflexivity|]. split; [reflexivity|].
      split; [cbn; lia|]. split; [reflexivity|]. split; [congruence|].
      intros l0 H; discriminate H.
    + eexists _, [l]. split; [reflexivity|]. split; [reflexivity|].
      split; [cbn; lia|]. split; [reflexivity|]. split; [cbn; congruence|].
      intros l0 [= <-]. split; reflexivity.
  - intros [= <- <-]. exists srv, []. split; [exact Hs|]. split; [reflexivity|].
    split; [cbn; lia|]. split; [reflexivity|]. split; [reflexivity|].
    intros l0 H; discriminate H.
Qed.

Lemma Open_keeps_earlier_listeners_witness :
  exists s' srv',
    Open stickyEnv servingServer = Return (s', None) /\ server s' = Some srv' /\
    length (listeners srv') = 2%nat /\ Port servingServer = 8080%Z.
Proof.
  destruct (Open_keeps_earlier_listeners stickyEnv servingServer
              (setEngine (Serve (mkHTTPServer [mkListener 8080 None None] [0%Z] false)
                            (mkListener 8080 None (Some (OpError "close" ""))))
                 (setLn (Some (mkListener 8080 None (Some (OpError "close" ""))))
                    servingServer))
              (mkHTTPServer [mkListener 8080 None None] [0%Z] false) None
              eq_refl eq_refl) as (srv' & new & H1 & _).
  eexists _, _. split; [reflexivity|]. split; [reflexivity|]. split; reflexivity.
Defined.

(** X12. [Close] never blocks longer than [ShutdownTimeout]: whatever is in
    flight, the caller waits between nothing and one second. *)
Theorem Close_wait_bounded (rnd : nat -> Z) (s : Server) (c : closed) :
  Close rnd s = Return c -> (0 <= blocked c <= ShutdownTimeout)%Z.
Proof.
  unfold Close. destruct (server s) as [srv|]; [|discriminate].
  intros [= <-]. cbn [blocked].
  assert (0 < ShutdownTimeout)%Z by reflexivity.
  destruct (Shutdown_cases rnd srv ShutdownTimeout) as [(t & -> & _ & Ht) | ->];
    cbn [waited]; lia.
Qed.

Lemma Close_wait_bounded_witness :
  exists c, Close fullJitter (busyServer 86400000000000) = Return c /\
            (0 <= blocked c <= ShutdownTimeout)%Z.
Proof.
  eexists. split; [reflexivity|].
  exact (Close_wait_bounded fullJitter (busyServer 86400000000000) _ eq_refl).
Defined.

(** X13. [Close] does not reset the listener field: after it [Port],
    [Scheme] and [URL] still report the listener that was open, and the
    configuration and the router are untouched. *)
Theorem Close_keeps_listener_field (rnd : nat -> Z) (s : Server) (c : closed) :
  Close rnd s = Return c ->
  ln (after c) = ln s /\ Port (after c) = Port s /\ Scheme (after c) = Scheme s /\
  URL (after c) = URL s /\ Addr (after c) = Addr s /\ Domain (after c) = Domain s /\
  HashKey (after c) = HashKey s /\ BlockKey (after c) = BlockKey s /\
  router (after c) = router s.
Proof.
  unfold Close. destruct (server s) as [srv|]; [|discriminate].
  intros [= <-]. cbn [after].
  repeat (split; [reflexivity|]). reflexivity.
Qed.

Lemma Close_keeps_listener_field_witness :
  exists c, Close noJitter servingServer = Return c /\ Port (after c) = 8080%Z /\
            URL (after c) = "http://localhost:8080".
Proof.
  eexists. split; [reflexivity|].
  destruct (Close_keeps_listener_field noJitter servingServer _ eq_refl)
    as (_ & H1 & _ & H2 & _).
  exact (conj H1 H2).
Defined.

(** X14. A second [Close] has nothing left to do: after a [Close] that
    returned nil, closing again returns nil at once, whatever the polling,
    and changes nothing. *)
Theorem Close_twice (rnd rnd' : nat -> Z) (s : Server) (c : closed) :
  Close rnd s = Return c -> returned c = None ->
  Close rnd' (after c) = Return (mkClosed (after c) None 0).
Proof.
  unfold Close at 1. destruct (server s) as [srv|]; [|discriminate].
  intros [= <-]. cbn [returned after].
  destruct (Shutdown_cases rnd srv ShutdownTimeout) as [(t & -> & _) | ->];
    cbn [err engine]; [|discriminate].
  intros _.
  rewrite (Close_engine rnd' (setEngine (mkHTTPServer [] [] true) s)
             (mkHTTPServer [] [] true) eq_refl).
  rewrite (Shutdown_idle rnd' (mkHTTPServer [] [] true) ShutdownTimeout eq_refl).
  reflexivity.
Qed.

Lemma Close_twice_witness :
  exists c, Close noJitter (busyServer 300000000) = Return c /\
            Close fullJitter (after c) = Return (mkClosed (after c) None 0).
Proof.
  eexists. split; [reflexivity|].
  apply (Close_twice noJitter fullJitter (busyServer 300000000)); reflexivity.
Defined.

(** ** What holds in every state *)

Lemma traffic_keeps (busy : list Z) (srv : HTTPServer) :
  listeners (traffic busy srv) = listeners srv /\
  inShutdown (traffic busy srv) = inShutdown srv.
Proof.
  unfold traffic. destruct (listeners srv) eqn:E; cbn; [|now split].
  now rewrite E.
Qed.

Lemma engineOK_Serve (srv : HTTPServer) (l : Listener) :
  engineOK srv -> engineOK (Serve srv l).
Proof.
  intros Hok. unfold Serve.
  destruct (inShutdown srv) eqn:Hsd; [exact Hok|].
  unfold engineOK. cbn. congruence.
Qed.

Lemma reachable_inv (s : Server) :
  reachable s ->
  router s = Some (registerPkgRoutes "/" []) /\
  exists srv, server s = Some srv /\ engineOK srv.
Proof.
  induction 1 as [| a s _ IH | d s _ IH | k s _ IH | k s _ IH
                  | env s s' e _ IH Ho | busy s srv _ IH Hs
                  | i s srv l _ IH Hs Hl Ha | rnd s c _ IH Hc];
    try exact IH.
  - split; [reflexivity|]. exists emptyHTTPServer. split; [reflexivity|].
    discriminate.
  - destruct IH as (Hr & srv & Hs & Hok). unfold Open in Ho. rewrite Hs in Ho.
    destruct (if negb (String.eqb (Domain s) "") then _ else _) as [l|e'];
      injection Ho as <- _; cbn.
    + split; [exact Hr|]. eexists. split; [reflexivity|]. now apply engineOK_Serve.
    + split; [exact Hr|]. now exists srv.
  - destruct IH as (Hr & srv0 & Hs0 & Hok).
    assert (srv0 = srv) as -> by congruence.
    split; [exact Hr|]. eexists. split; [reflexivity|].
    unfold engineOK. destruct (traffic_keeps busy srv) as [-> ->]. exact Hok.
  - destruct IH as (Hr & srv0 & Hs0 & Hok).
    assert (srv0 = srv) as -> by congruence.
    split; [exact Hr|]. eexists. split; [reflexivity|].
    unfold engineOK, serveReturns. cbn. intros Hsd. now rewrite (Hok Hsd).
  - destruct IH as (Hr & srv & Hs & _). unfold Close in Hc. rewrite Hs in Hc.
    injection Hc as <-. cbn. split; [exact Hr|]. eexists. split; [reflexivity|].
    unfold engineOK. now destruct (Shutdown_engine rnd srv ShutdownTimeout) as [-> _].
Qed.

(** X15. No call on a Server of the host process panics: in every state
    reached from [NewServer] by setting fields, opening, serving and
    closing, the engine and the router are there, so [Open], [Close] and
    [serveHTTP] return; and the route table is still the one [NewServer]
    registered. *)
Theorem reachable_never_panics (s : Server) :
  reachable s ->
  (forall env : Env, Open env s <> Panic) /\
  (forall rnd : nat -> Z, Close rnd s <> Panic) /\
  (forall (Response : Type) (mux : Router -> Request -> Response) (r : Request),
     serveHTTP mux s r <> Panic) /\
  router s = Some (registerPkgRoutes "/" []).
Proof.
  intros Hr. destruct (reachable_inv s Hr) as (Hrt & srv & Hs & _).
  split; [|split; [|split]].
  - intros env. unfold Open. rewrite Hs.
    destruct (if negb (String.eqb (Domain s) "") then _ else _); discriminate.
  - intros rnd. unfold Close. rewrite Hs. discriminate.
  - intros Response mux r. unfold serveHTTP. rewrite Hrt. discriminate.
  - exact Hrt.
Qed.

Lemma reachable_stickyServer : reachable stickyServer.
Proof.
  apply (reach_open stickyEnv (setAddr ":8080" NewServer) _ None).
  - apply reach_addr, reach_new.
  - reflexivity.
Defined.

Lemma reachable_never_panics_witness :
  Close noJitter stickyServer <> Panic /\
  router stickyServer = Some (registerPkgRoutes "/" []).
Proof.
  destruct (reachable_never_panics stickyServer reachable_stickyServer)
    as (_ & H1 & _ & H2).
  exact (conj (H1 noJitter) H2).
Defined.

(** X16. Closed is for good: in every state of the host process an engine
    that has been shut down tracks no listener, whatever was opened
    afterwards. *)
Theorem reachable_engine (s : Server) (srv : HTTPServer) :
  reachable s -> server s = Some srv ->
  inShutdown srv = true -> listeners srv = [].
Proof.
  intros Hr Hs. destruct (reachable_inv s Hr) as (_ & srv' & Hs' & Hok).
  assert (srv' = srv) as <- by congruence. exact Hok.
Qed.

Lemma reachable_closed_reopened :
  reachable (setEngine (mkHTTPServer [] [] true)
               (setLn (Some (mkListener 8080 None None)) stickyServer)).
Proof.
  apply (reach_open goodEnv
           (setEngine (mkHTTPServer [] [] true) stickyServer) _ None).
  - apply (reach_close noJitter stickyServer
             (mkClosed (setEngine (mkHTTPServer [] [] true) stickyServer)
                (Some (OpError "close" ":8080")) 0)).
    + exact reachable_stickyServer.
    + reflexivity.
  - reflexivity.
Defined.

Lemma reachable_engine_witness :
  listeners (mkHTTPServer [] [] true) = [].
Proof.
  exact (reachable_engine _ (mkHTTPServer [] [] true) reachable_closed_reopened
           eq_refl eq_refl).
Defined.

(** ** The host process *)

Lemma main_failed_bind (env : Env) (rt : workshop.Runtime) (e : error) :
  net_Listen env "tcp" "" = Err e ->
  workshop.main env rt =
    if workshop.timers rt then workshop.mkProcess (workshop.Exited 1) [e] []
    else workshop.mkProcess workshop.Aborted [] [].
Proof.
  intros H. unfold workshop.main, workshop.Run, workshop.NewMain.
  cbn [workshop.HTTPServer].
  rewrite (Open_tcp env NewServer eq_refl). cbn [Addr NewServer server]. rewrite H.
  destruct (workshop.timers rt); [|reflexivity].
  unfold workshop.Close. cbn [workshop.HTTPServer].
  now rewrite (Close_engine (workshop.rand rt) (setLn None NewServer) emptyHTTPServer eq_refl).
Qed.

(** X17. When the address cannot be bound [main] does not wait for the
    interrupt and logs no URL.  It closes the Server that never opened,
    prints the error of [net.Listen] and exits with status 1; only when
    the runtime cannot start the timer of that [Close], for want of a
    descriptor, the process is aborted before the error is printed. *)
Theorem main_bind_failure (env : Env) (rt : workshop.Runtime) (e : error) :
  net_Listen env "tcp" "" = Err e ->
  (workshop.timers rt = true ->
   workshop.main env rt = workshop.mkProcess (workshop.Exited 1) [e] []) /\
  (workshop.timers rt = false ->
   workshop.main env rt = workshop.mkProcess workshop.Aborted [] []).
Proof.
  intros H. rewrite (main_failed_bind env rt e H).
  split; intros ->; reflexivity.
Qed.

Lemma main_bind_failure_witness :
  workshop.main brokenEnv (workshop.mkRuntime noJitter true None) =
    workshop.mkProcess (workshop.Exited 1) [OpError "listen" ""] [] /\
  workshop.main brokenEnv (workshop.mkRuntime noJitter false None) =
    workshop.mkProcess workshop.Aborted [] [].
Proof.
  split.
  - apply (proj1 (main_bind_failure brokenEnv (workshop.mkRuntime noJitter true None)
                    (OpError "listen" "") eq_refl)). reflexivity.
  - apply (proj2 (main_bind_failure brokenEnv (workshop.mkRuntime noJitter false None)
                    (OpError "listen" "") eq_refl)). reflexivity.
Defined.

Lemma main_bound (env : Env) (rt : workshop.Runtime) (l : Listener) :
  net_Listen env "tcp" "" = Ok l ->
  workshop.main env rt =
    let url := if (port l =? 80)%Z then "http://localhost"
               else "http://localhost:" +:+ itoa (port l) in
    match workshop.interrupt rt with
    | None => workshop.mkProcess workshop.Waiting [] [workshop.Running url]
    | Some busy =>
        match err (Shutdown (workshop.rand rt) (mkHTTPServer [l] busy false)
                     ShutdownTimeout) with
        | Some e => workshop.mkProcess (workshop.Exited 1) [e] [workshop.Running url]
        | None => workshop.mkProcess (workshop.Exited 0) [] [workshop.Running url]
        end
    end.
Proof.
  intros H. unfold workshop.main, workshop.Run, workshop.NewMain.
  cbn [workshop.HTTPServer].
  rewrite (Open_tcp env NewServer eq_refl). cbn [Addr NewServer server]. rewrite H.
  change (Serve emptyHTTPServer l) with (mkHTTPServer [l] [] false).
  rewrite (URL_plain (setEngine (mkHTTPServer [l] [] false) (setLn (Some l) NewServer))
             eq_refl).
  cbn [Port ln setEngine setLn]. cbv zeta.
  destruct (workshop.interrupt rt) as [busy|]; [|reflexivity].
  unfold workshop.atInterrupt, workshop.Close. cbn [workshop.HTTPServer server setEngine].
  change (traffic busy (mkHTTPServer [l] [] false)) with (mkHTTPServer [l] busy false).
  cbn [workshop.HTTPServer]. unfold Close. cbn [server setEngine returned].
  destruct (err _); reflexivity.
Qed.

(** X19. When the bind succeeds [main] logs the URL of the bound port and
    waits: without an interrupt it never exits.  When the interrupt comes,
    with a listener that closes cleanly, its exit tells how the shutdown
    went: with requests in flight that need 562.1 ms or more it prints the
    deadline error and exits with 1, also when they would have been done
    within the second; with requests that need 511 ms at most it exits
    with 0. *)
Theorem main_serving (env : Env) (rt : workshop.Runtime) (l : Listener) :
  net_Listen env "tcp" "" = Ok l -> closeErr l = None ->
  workshop.logged (workshop.main env rt)
    = [workshop.Running (if (port l =? 80)%Z then "http://localhost"
                         else "http://localhost:" +:+ itoa (port l))] /\
  (workshop.interrupt rt = None ->
   workshop.status (workshop.main env rt) = workshop.Waiting /\
   workshop.reported (workshop.main env rt) = []) /\
  (forall busy, workshop.interrupt rt = Some busy ->
     ((562100000 <= fold_right Z.max 0%Z busy)%Z ->
      workshop.status (workshop.main env rt) = workshop.Exited 1 /\
      workshop.reported (workshop.main env rt) = [DeadlineExceeded]) /\
     ((fold_right Z.max 0%Z busy <= 511000000)%Z ->
      workshop.status (workshop.main env rt) = workshop.Exited 0 /\
      workshop.reported (workshop.main env rt) = [])).
Proof.
  intros Hl Hc. rewrite (main_bound env rt l Hl). cbv zeta.
  split; [|split].
  - destruct (workshop.interrupt rt); [destruct (err _)|]; reflexivity.
  - intros ->. now split.
  - intros busy ->. split.
    + intros Hlate.
      rewrite (Shutdown_second_late (workshop.rand rt) (mkHTTPServer [l] busy false) Hlate).
      now split.
    + intros Hin.
      destruct (Shutdown_second_early (workshop.rand rt) (mkHTTPServer [l] busy false) Hin)
        as (t & -> & _).
      cbn. rewrite Hc. now split.
Qed.

Lemma main_serving_witness :
  workshop.status
    (workshop.main goodEnv
       (workshop.mkRuntime fullJitter true (Some [250000000%Z; 700000000%Z])))
    = workshop.Exited 1 /\
  workshop.reported
    (workshop.main goodEnv
       (workshop.mkRuntime fullJitter true (Some [250000000%Z; 700000000%Z])))
    = [DeadlineExceeded].
Proof.
  apply (proj1 (proj2 (proj2 (main_serving goodEnv
           (workshop.mkRuntime fullJitter true (Some [250000000%Z; 700000000%Z]))
           (mkListener 8080 None None) eq_refl eq_refl))
           [250000000%Z; 700000000%Z] eq_refl)).
  vm_compute. discriminate.
Defined.

(** ** Paths under the home directory *)

Lemma HasPrefix_app (p s : string) : HasPrefix (p +:+ s) p = true.
Proof.
  unfold HasPrefix. rewrite length_app, substring_app_l, String.eqb_refl, andb_true_r.
  apply Nat.leb_le. lia.
Qed.

Lemma TrimPrefix_app (p s : string) : TrimPrefix (p +:+ s) p = s.
Proof.
  unfold TrimPrefix. rewrite HasPrefix_app, length_app.
  replace (String.length p + String.length s - String.length p)
    with (String.length s) by lia.
  apply substring_app_r.
Qed.

Lemma HasPrefix_short (s p : string) :
  String.length s < String.length p -> HasPrefix s p = false.
Proof.
  intros H. unfold HasPrefix.
  destruct (Nat.leb_spec (String.length p) (String.length s)); [lia | reflexivity].
Qed.

(** X20. [expand] returns every path that is not ["-"] and does not start
    with the tilde and the separator as it is, without error and without
    asking for the current user.  A lone ["~"] is such a path: it is not
    expanded, and the branch the code has for it is never taken. *)
Theorem expand_leaves_plain_paths (os : betwiz.Host) :
  (forall path : string,
     path <> "-" -> HasPrefix path (betwiz.tildeSep os) = false ->
     betwiz.expand os path = (path, None)) /\
  betwiz.expand os "~" = ("~", None).
Proof.
  assert (forall path : string,
            path <> "-" -> HasPrefix path (betwiz.tildeSep os) = false ->
            betwiz.expand os path = (path, None)) as H.
  { intros path Hd Hp. unfold betwiz.expand. rewrite Hp.
    destruct (String.eqb_spec path "-"); [contradiction | reflexivity]. }
  split; [exact H|].
  apply H; [discriminate|]. apply HasPrefix_short. cbn. lia.
Qed.

Lemma expand_leaves_plain_paths_witness :
  betwiz.expand (betwiz.unixHost (inl (betwiz.mkUser "/home/ann"))) betwiz.DefaultConfigPath
    = (betwiz.DefaultConfigPath, None).
Proof.
  apply (proj1 (expand_leaves_plain_paths
                  (betwiz.unixHost (inl (betwiz.mkUser "/home/ann")))));
    [discriminate | reflexivity].
Defined.

(** X21. With a current user whose home directory is set, [expand] puts a
    path that starts with the tilde and the separator under the home
    directory, joined with what follows the separator; the path ["-"] goes
    the same way and comes back joined to the home directory. *)
Theorem expand_under_home (os : betwiz.Host) (u : betwiz.User) :
  betwiz.user_Current os = inl u -> betwiz.HomeDir u <> "" ->
  (forall rest : string,
     betwiz.expand os (betwiz.tildeSep os +:+ rest)
       = (betwiz.filepath_Join os [betwiz.HomeDir u; rest], None)) /\
  betwiz.expand os "-" = (betwiz.filepath_Join os [betwiz.HomeDir u; "-"], None).
Proof.
  intros Hu Hh.
  assert (String.eqb (betwiz.HomeDir u) "" = false) as Hh' by now apply String.eqb_neq.
  split.
  - intros rest. unfold betwiz.expand.
    rewrite HasPrefix_app, andb_false_r, Hu, Hh', TrimPrefix_app.
    destruct (String.eqb_spec (betwiz.tildeSep os +:+ rest) "~") as [E|_]; [|reflexivity].
    apply (f_equal String.length) in E. rewrite length_app in E. cbn in E. lia.
  - unfold betwiz.expand. cbn [String.eqb negb andb]. rewrite Hu, Hh'.
    change (String.eqb "-" "-") with true. cbn [negb andb].
    change (String.eqb "-" "~") with false. cbv iota.
    assert (TrimPrefix "-" (betwiz.tildeSep os) = "-") as ->; [|reflexivity].
    unfold TrimPrefix. rewrite HasPrefix_short; [reflexivity | cbn; lia].
Qed.

Lemma expand_under_home_witness :
  betwiz.expandDSN (betwiz.unixHost (inl (betwiz.mkUser "/home/ann"))) betwiz.DefaultDSN
    = ("/home/ann/.betwiz/db", None).
Proof.
  apply (proj1 (expand_under_home (betwiz.unixHost (inl (betwiz.mkUser "/home/ann")))
                  (betwiz.mkUser "/home/ann") eq_refl ltac:(discriminate))
           ".betwiz/db").
Defined.

(** X22. An error of [expand] comes with the path as it was given, and
    only for ["-"] or a path that starts with the tilde and the separator:
    it is the error of looking up the current user, or ["home directory
    unset"] when the user has no home directory. *)
Theorem expand_error_keeps_path
    (os : betwiz.Host) (path p : string) (e : betwiz.hostError) :
  betwiz.expand os path = (p, Some e) ->
  p = path /\
  (path = "-" \/ HasPrefix path (betwiz.tildeSep os) = true) /\
  (betwiz.user_Current os = inr e \/
   exists u, betwiz.user_Current os = inl u /\ betwiz.HomeDir u = "" /\
             e = betwiz.Errorf "home directory unset").
Proof.
  unfold betwiz.expand.
  destruct (String.eqb_spec path "-") as [Hd|Hd];
    destruct (HasPrefix path (betwiz.tildeSep os)) eqn:Hp; cbn [negb andb];
    try discriminate.
  all: destruct (betwiz.user_Current os) as [u|e'] eqn:Hu.
  all: try (destruct (String.eqb_spec (betwiz.HomeDir u) "") as [Hh|Hh];
            [| destruct (String.eqb path "~"); discriminate]).
  all: intros [= <- <-]; split; [reflexivity|]; split; eauto.
Qed.

Lemma expand_error_keeps_path_witness :
  betwiz.expand (betwiz.unixHost (inl (betwiz.mkUser ""))) "~/.betwiz/db"
    = ("~/.betwiz/db", Some (betwiz.Errorf "home directory unset")) /\
  betwiz.user_Current (betwiz.unixHost (inl (betwiz.mkUser "")))
    <> inr (betwiz.Errorf "home directory unset").
Proof.
  split; [reflexivity|].
  destruct (expand_error_keeps_path (betwiz.unixHost (inl (betwiz.mkUser "")))
              "~/.betwiz/db" "~/.betwiz/db" (betwiz.Errorf "home directory unset") eq_refl)
    as (_ & _ & [H | (u & _ & _ & _)]); [discriminate H | discriminate].
Defined.

(** X23. The version is taken as built: trimming the empty prefix, as the
    first statement of [main] does, removes nothing. *)
Theorem Version_unchanged (version : string) : betwiz.Version version = version.
Proof.
  unfold betwiz.Version, TrimPrefix, HasPrefix. cbn.
  assert (substring 0 0 version = "") as -> by (destruct version; reflexivity).
  cbn. rewrite Nat.sub_0_r. apply substring_whole.
Qed.
